(** * bookSearch: the book search / favorites / recommendations controller

    A shallow embedding of
    [force-app/main/default/lwc/bookSearch/bookSearch.js].

    - JavaScript numbers are IEEE binary64 values ([spec_float] of the
      Standard Library, precision 53, emax 1024); [Number.prototype.toFixed]
      follows ECMA-262 on the exact real value of the double.
    - The component's tracked fields are a record; every handler is a
      function on that record.  Events dispatched and remote calls issued are
      appended to a trace kept in the state.
    - An [async] method is split at its [await]: the part that runs up to the
      remote call, and the continuation that runs when the promise settles.
    - [setTimeout]/[clearTimeout] are a timer table with a logical clock in
      milliseconds.
    - Values have the shapes the Apex contracts give them: a search or wire
      result is an array of records, [Id], [Name], [Language__c] and
      [Genre__c] are strings, and [Price__c] is a number, [null] or
      missing. *)

From Stdlib Require Import ZArith String Ascii List Lia.
From Stdlib Require Import Floats.SpecFloat.
From stdpp Require Import base gmap sets list strings.

Open Scope Z_scope.

(** ** JavaScript numbers and [toFixed] *)

Module JsNumber.

(** binary64 *)
Definition prec : Z := 53.
Definition emax : Z := 1024.

Definition is_double (x : spec_float) : bool := valid_binary prec emax x.

(** 𝔽(v) for an integer [v]: round to nearest, ties to even. *)
Definition of_Z (v : Z) : spec_float := binary_normalize prec emax v 0 false.

(** A decimal literal [p/q] as the parser reads it: the nearest double. *)
Definition of_ratio (p q : Z) : spec_float := SFdiv prec emax (of_Z p) (of_Z q).

(** [ToBoolean] on a number: +0, -0 and NaN are falsy. *)
Definition truthy (x : spec_float) : bool :=
  match x with
  | S754_zero _ | S754_nan => false
  | S754_infinity _ | S754_finite _ _ _ => true
  end.

(** [k <= m * 2^e], on integers. *)
Definition mag_ge (m : positive) (e : Z) (k : Z) : bool :=
  if 0 <=? e then k <=? Z.pos m * 2 ^ e else k * 2 ^ (- e) <=? Z.pos m.

(** "Let n be an integer for which n / 10^f - x is as close to zero as
    possible.  If there are two such n, pick the larger n."  Here
    x = m * 2^e > 0. *)
Definition nearest (m : positive) (e : Z) (f : Z) : Z :=
  if 0 <=? e then Z.pos m * 2 ^ e * 10 ^ f
  else (2 * Z.pos m * 10 ^ f + 2 ^ (- e)) / 2 ^ (1 - e).

Definition digit_char (d : Z) : ascii := ascii_of_nat (48 + Z.to_nat d).

Fixpoint decimal_fuel (fuel : nat) (n : Z) (acc : string) : string :=
  match fuel with
  | O => acc
  | S fuel' =>
      let acc' := String (digit_char (n mod 10)) acc in
      if n <? 10 then acc' else decimal_fuel fuel' (n / 10) acc'
  end.

(** The decimal representation of a non-negative integer ("0" for 0). *)
Definition decimal (n : Z) : string :=
  decimal_fuel (S (Z.to_nat (Z.log2 n))) n "".

Fixpoint zeros (k : nat) : string :=
  match k with O => "" | S k' => String "0" (zeros k') end.

Definition str_take (k : nat) (s : string) : string := substring 0 k s.
Definition str_drop (k : nat) (s : string) : string :=
  substring k (String.length s - k) s.

(** Steps 9.b-9.c of [Number.prototype.toFixed]: pad [decimal n] with zeros to
    at least [f+1] characters and put a point before the last [f]. *)
Definition fixed_digits (n : Z) (f : nat) : string :=
  let m := decimal n in
  match f with
  | O => m
  | S _ =>
      let k := String.length m in
      let m' := if (k <=? f)%nat then zeros (f + 1 - k) +:+ m else m in
      let k' := String.length m' in
      str_take (k' - f) m' +:+ "." +:+ str_drop (k' - f) m'
  end.

(** *** [Number::toString] for a double of value at least 10^21

    "Let n, k, and s be integers such that k ≥ 1, 10^(k-1) ≤ s < 10^k,
    𝔽(s × 10^(n-k)) is x, and k is as small as possible"; among several
    [s] the one closest to x is taken.  With x ≥ 10^21 the value is an
    integer, n > 21, and the result is in exponent form. *)

(** The candidates [(s, n)] with [k] digits around the exact value [v], which
    has [nd] decimal digits. *)
Definition shortest_candidates (v : Z) (nd k : Z) : list (Z * Z) :=
  let s0 := v / 10 ^ (nd - k) in
  (s0, nd) :: (if s0 + 1 <? 10 ^ k then [(s0 + 1, nd)] else []) ++ [(10 ^ (k - 1), nd + 1)].

Definition SF_eqb (x y : spec_float) : bool :=
  match SFcompare x y with Some Eq => true | _ => false end.

Definition rounds_to (x : spec_float) (k : Z) (c : Z * Z) : bool :=
  SF_eqb (of_Z (fst c * 10 ^ (snd c - k))) x.

(** the candidate closest to [v]; on a tie the even [s] *)
Definition closer (v k : Z) (c d : Z * Z) : Z * Z :=
  let dc := Z.abs (fst c * 10 ^ (snd c - k) - v) in
  let dd := Z.abs (fst d * 10 ^ (snd d - k) - v) in
  if dc <? dd then c
  else if dd <? dc then d
  else if Z.even (fst c) then c else d.

Definition best_candidate (x : spec_float) (v nd k : Z) : option (Z * Z) :=
  match filter (fun c => rounds_to x k c = true) (shortest_candidates v nd k) with
  | [] => None
  | c :: cs => Some (fold_left (closer v k) cs c)
  end.

Fixpoint shortest_from (fuel : nat) (x : spec_float) (v nd k : Z) : Z * Z * Z :=
  match fuel with
  | O => (v, nd, nd)
  | S fuel' =>
      match best_candidate x v nd k with
      | Some (s, n) => (s, n, k)
      | None => shortest_from fuel' x v nd (k + 1)
      end
  end.

(** [m * 2^e] is a double of value at least 10^21, so [0 <= e]. *)
Definition toString_exp (m : positive) (e : Z) : string :=
  let v := Z.pos m * 2 ^ e in
  let nd := Z.of_nat (String.length (decimal v)) in
  let '(s, n, k) := shortest_from 17 (S754_finite false m e) v nd 1 in
  let ds := decimal s in
  let mant := if k =? 1 then ds else str_take 1 ds +:+ "." +:+ str_drop 1 ds in
  mant +:+ "e+" +:+ decimal (n - 1).

(** [Number.prototype.toFixed(f)], 0 <= f <= 100. *)
Definition toFixed (x : spec_float) (f : nat) : string :=
  match x with
  | S754_nan => "NaN"
  | S754_infinity s => if s then "-Infinity" else "Infinity"
  | S754_zero _ => fixed_digits 0 f
  | S754_finite s m e =>
      (if s then "-" else "") +:+
      (if mag_ge m e (10 ^ 21) then toString_exp m e
       else fixed_digits (nearest m e (Z.of_nat f)) f)
  end.

End JsNumber.

(** ** The component *)

(** A value read from a record's [Price__c] field. *)
Inductive JsPrice :=
| JsUndefined
| JsNull
| JsNum (x : spec_float).

(** A catalog record as the Apex controllers return it. *)
Record RawBook := {
  Id : string;
  Name : string;
  Price__c : JsPrice;
  Language__c : string;
  Genre__c : string
}.

(** [{...book, isFavorite, priceFormatted}] *)
Record Book := {
  fields : RawBook;
  isFavorite : bool;
  priceFormatted : string
}.

Record SessionInfo := {
  accessToken : string;
  sessionId : string
}.

Record ShowToastEvent := {
  title : string;
  message : string;
  variant : string
}.

(** What the component does to the outside, in order. *)
Inductive Effect :=
| DispatchEvent (ev : ShowToastEvent)
| GetBooks (searchTerm : string)
| GetSessionInfo
| InvokeAgent (accessToken sessionId Message : string)
| ConsoleLog (msg : string)
| ConsoleError (msg : string).

(** How a promise settles. *)
Inductive Settled (A : Type) :=
| Resolved (a : A)
| Rejected.
Arguments Resolved {A} a.
Arguments Rejected {A}.

(** What the wire adapter hands to [wiredBooks]. *)
Record WireValue := {
  error : option string;
  data : option (list RawBook)
}.

(** The [lightning-button-icon] an event comes from. *)
Record Button := {
  dataset_bookId : string;
  iconName : string;
  buttonVariant : string
}.

(** The tracked fields of the class, [this.delayTimeout], and the trace of
    effects so far. *)
Record BookSearch := {
  books : list Book;
  searchTerm : string;
  isLoading : bool;
  favoriteBooks : gset string;
  sessionInfo : option SessionInfo;
  showRecommendations : bool;
  recommendations : string;
  selectedBookName : string;
  delayTimeout : option nat;
  trace : list Effect
}.

(** The field initializers of the class. *)
Definition initial : BookSearch := {|
  books := [];
  searchTerm := "";
  isLoading := false;
  favoriteBooks := ∅;
  sessionInfo := None;
  showRecommendations := false;
  recommendations := "";
  selectedBookName := "";
  delayTimeout := None;
  trace := []
|}.

(** Assignments to one field, [this.books = v] and the like. *)

Definition set_books v (st : BookSearch) : BookSearch :=
  {| books := v; searchTerm := searchTerm st; isLoading := isLoading st;
     favoriteBooks := favoriteBooks st; sessionInfo := sessionInfo st;
     showRecommendations := showRecommendations st;
     recommendations := recommendations st;
     selectedBookName := selectedBookName st;
     delayTimeout := delayTimeout st; trace := trace st |}.

Definition set_searchTerm v (st : BookSearch) : BookSearch :=
  {| books := books st; searchTerm := v; isLoading := isLoading st;
     favoriteBooks := favoriteBooks st; sessionInfo := sessionInfo st;
     showRecommendations := showRecommendations st;
     recommendations := recommendations st;
     selectedBookName := selectedBookName st;
     delayTimeout := delayTimeout st; trace := trace st |}.

Definition set_isLoading v (st : BookSearch) : BookSearch :=
  {| books := books st; searchTerm := searchTerm st; isLoading := v;
     favoriteBooks := favoriteBooks st; sessionInfo := sessionInfo st;
     showRecommendations := showRecommendations st;
     recommendations := recommendations st;
     selectedBookName := selectedBookName st;
     delayTimeout := delayTimeout st; trace := trace st |}.

Definition set_favoriteBooks v (st : BookSearch) : BookSearch :=
  {| books := books st; searchTerm := searchTerm st;
     isLoading := isLoading st;
     favoriteBooks := v; sessionInfo := sessionInfo st;
     showRecommendations := showRecommendations st;
     recommendations := recommendations st;
     selectedBookName := selectedBookName st;
     delayTimeout := delayTimeout st; trace := trace st |}.

Definition set_sessionInfo v (st : BookSearch) : BookSearch :=
  {| books := books st; searchTerm := searchTerm st;
     isLoading := isLoading st;
     favoriteBooks := favoriteBooks st; sessionInfo := v;
     showRecommendations := showRecommendations st;
     recommendations := recommendations st;
     selectedBookName := selectedBookName st;
     delayTimeout := delayTimeout st; trace := trace st |}.

Definition set_showRecommendations v (st : BookSearch) : BookSearch :=
  {| books := books st; searchTerm := searchTerm st;
     isLoading := isLoading st;
     favoriteBooks := favoriteBooks st; sessionInfo := sessionInfo st;
     showRecommendations := v;
     recommendations := recommendations st;
     selectedBookName := selectedBookName st;
     delayTimeout := delayTimeout st; trace := trace st |}.

Definition set_recommendations v (st : BookSearch) : BookSearch :=
  {| books := books st; searchTerm := searchTerm st;
     isLoading := isLoading st;
     favoriteBooks := favoriteBooks st; sessionInfo := sessionInfo st;
     showRecommendations := showRecommendations st;
     recommendations := v;
     selectedBookName := selectedBookName st;
     delayTimeout := delayTimeout st; trace := trace st |}.

Definition set_selectedBookName v (st : BookSearch) : BookSearch :=
  {| books := books st; searchTerm := searchTerm st;
     isLoading := isLoading st;
     favoriteBooks := favoriteBooks st; sessionInfo := sessionInfo st;
     showRecommendations := showRecommendations st;
     recommendations := recommendations st;
     selectedBookName := v;
     delayTimeout := delayTimeout st; trace := trace st |}.

Definition set_delayTimeout v (st : BookSearch) : BookSearch :=
  {| books := books st; searchTerm := searchTerm st;
     isLoading := isLoading st;
     favoriteBooks := favoriteBooks st; sessionInfo := sessionInfo st;
     showRecommendations := showRecommendations st;
     recommendations := recommendations st;
     selectedBookName := selectedBookName st;
     delayTimeout := v; trace := trace st |}.

(** append one effect to the trace *)
Definition emit (ef : Effect) (st : BookSearch) : BookSearch :=
  {| books := books st; searchTerm := searchTerm st;
     isLoading := isLoading st;
     favoriteBooks := favoriteBooks st; sessionInfo := sessionInfo st;
     showRecommendations := showRecommendations st;
     recommendations := recommendations st;
     selectedBookName := selectedBookName st;
     delayTimeout := delayTimeout st; trace := trace st ++ [ef] |}.

(** *** Methods *)

(** [formatPrice(price)]: [undefined], [null], [0], [-0] and [NaN] are
    falsy. *)
Definition formatPrice (price : JsPrice) : string :=
  match price with
  | JsNum x =>
      if JsNumber.truthy x then "$" +:+ JsNumber.toFixed x 2 else "$0.00"
  | JsUndefined | JsNull => "$0.00"
  end.

(** [showToast(title, message, variant)] *)
Definition showToast (title message variant : string) (st : BookSearch)
  : BookSearch :=
  emit (DispatchEvent {| title := title; message := message;
                         variant := variant |}) st.

(** [wiredBooks({ error, data })] *)
Definition wiredBooks (v : WireValue) (st : BookSearch) : BookSearch :=
  match data v with
  | Some d =>
      set_books
        (map (fun book => {| fields := book;
                             isFavorite := false;
                             priceFormatted := formatPrice (Price__c book) |})
             d) st
  | None =>
      match error v with
      | Some _ => showToast "Error" "Failed to load books" "error" st
      | None => st
      end
  end.

(** [connectedCallback()], up to the [await]. *)
Definition connectedCallback_call (st : BookSearch) : BookSearch :=
  emit GetSessionInfo st.

(** [connectedCallback()], from the [await] on. *)
Definition connectedCallback_settle (r : Settled (option SessionInfo))
    (st : BookSearch) : BookSearch :=
  match r with
  | Resolved si =>
      emit (ConsoleLog "Session Info initialized:") (set_sessionInfo si st)
  | Rejected =>
      showToast "Error" "Failed to initialize recommendation service" "error"
        (emit (ConsoleError "Error initializing session:") st)
  end.

(** [performSearch()], up to the [await]. *)
Definition performSearch_call (st : BookSearch) : BookSearch :=
  let st := set_isLoading true st in
  emit (GetBooks (searchTerm st)) st.

(** [performSearch()], from the [await] on: the [try] body after the call
    returned, or the [catch], and then the [finally]. *)
Definition performSearch_settle (r : Settled (list RawBook))
    (st : BookSearch) : BookSearch :=
  let st :=
    match r with
    | Resolved result =>
        set_books
          (map (fun book =>
                  {| fields := book;
                     isFavorite := bool_decide (Id book ∈ favoriteBooks st);
                     priceFormatted := formatPrice (Price__c book) |})
               result) st
    | Rejected => showToast "Error" "Failed to search books" "error" st
    end in
  set_isLoading false st.

(** One whole run of [performSearch()], nothing interleaved at the
    [await]. *)
Definition performSearch (r : Settled (list RawBook)) (st : BookSearch)
  : BookSearch :=
  performSearch_settle r (performSearch_call st).

(** A method that stopped at an [await] of a remote call, or returned. *)
Inductive Async :=
| Awaiting (st : BookSearch)
| Returned (st : BookSearch).

Definition state_of (a : Async) : BookSearch :=
  match a with Awaiting st | Returned st => st end.

Definition placeholder : string :=
  "No recommendations available at this time.".

(** [getRecommendations(book)], up to the [await]. *)
Definition getRecommendations_call (book : Book) (st : BookSearch) : Async :=
  match sessionInfo st with
  | None =>
      Returned
        (showToast "Error" "Recommendation service not initialized" "error" st)
  | Some si =>
      let message :=
        "Find Recommended Books similar to " +:+ Name (fields book) +:+
        ", language " +:+ Language__c (fields book) +:+
        " and Genre " +:+ Genre__c (fields book) in
      let st := set_selectedBookName (Name (fields book)) st in
      let st := set_isLoading true st in
      Awaiting (emit (InvokeAgent (accessToken si) (sessionId si) message) st)
  end.

(** [recommendations || '...']: [null] and [''] are falsy. *)
Definition or_placeholder (r : option string) : string :=
  match r with
  | Some s => if String.eqb s "" then placeholder else s
  | None => placeholder
  end.

(** [getRecommendations(book)], from the [await] on. *)
Definition getRecommendations_settle (r : Settled (option string))
    (st : BookSearch) : BookSearch :=
  let st :=
    match r with
    | Resolved recs =>
        set_showRecommendations true
          (set_recommendations (or_placeholder recs) st)
    | Rejected =>
        showToast "Error" "Failed to get book recommendations" "error"
          (emit (ConsoleError "Error getting recommendations:") st)
    end in
  set_isLoading false st.

(** Resume a suspended method when the agent call settles. *)
Definition agent_settles (r : Settled (option string)) (a : Async)
  : BookSearch :=
  match a with
  | Awaiting st => getRecommendations_settle r st
  | Returned st => st
  end.

(** One whole run of [getRecommendations(book)]. *)
Definition getRecommendations (book : Book) (r : Settled (option string))
    (st : BookSearch) : BookSearch :=
  agent_settles r (getRecommendations_call book st).

Definition set_isFavorite (v : bool) (b : Book) : Book :=
  {| fields := fields b; isFavorite := v;
     priceFormatted := priceFormatted b |}.

(** [handleFavoriteToggle(event)] with [event.currentTarget = button], up to
    the [await] inside [getRecommendations].  [book] is the first element of
    [this.books] with the id; flipping its flag changes the list element in
    place. *)
Definition handleFavoriteToggle (button : Button) (st : BookSearch)
  : Button * Async :=
  let bookId := dataset_bookId button in
  match list_find (fun b => Id (fields b) = bookId) (books st) with
  | Some (i, book) =>
      let book := set_isFavorite (negb (isFavorite book)) book in
      let st := set_books (<[i := book]> (books st)) st in
      if isFavorite book then
        let button := {| dataset_bookId := bookId;
                         iconName := "utility:favorite";
                         buttonVariant := "brand" |} in
        let st := set_favoriteBooks ({[bookId]} ∪ favoriteBooks st) st in
        let st := showToast "Success"
                    (Name (fields book) +:+ " added to favorites")
                    "success" st in
        (button, getRecommendations_call book st)
      else
        let button := {| dataset_bookId := bookId;
                         iconName := "utility:favorite_alt";
                         buttonVariant := "border-filled" |} in
        let st := set_favoriteBooks (favoriteBooks st ∖ {[bookId]}) st in
        let st := showToast "Success"
                    (Name (fields book) +:+ " removed from favorites")
                    "success" st in
        (button, Returned st)
  | None => (button, Returned st)
  end.

(** [handleClearSearch()], up to the [await] inside [performSearch]; the
    [lightning-input] it empties is not part of the state. *)
Definition handleClearSearch (st : BookSearch) : BookSearch :=
  performSearch_call (set_searchTerm "" st).

(** [handleCloseRecommendations()] *)
Definition handleCloseRecommendations (st : BookSearch) : BookSearch :=
  set_selectedBookName ""
    (set_recommendations "" (set_showRecommendations false st)).

(** The toast of [getRecommendations] when there is no session. *)
Definition not_initialized : ShowToastEvent :=
  {| title := "Error"; message := "Recommendation service not initialized";
     variant := "error" |}.

(** The notifications in a trace. *)
Definition toasts (tr : list Effect) : list ShowToastEvent :=
  omap (fun ef => match ef with DispatchEvent ev => Some ev | _ => None end) tr.

(** The agent calls in a trace, by message. *)
Definition agent_calls (tr : list Effect) : list string :=
  omap (fun ef => match ef with InvokeAgent _ _ m => Some m | _ => None end) tr.

(** The search calls in a trace, by search term. *)
Definition search_calls (tr : list Effect) : list string :=
  omap (fun ef => match ef with GetBooks s => Some s | _ => None end) tr.

(** ** Timers: the debounce of [handleSearchChange]

    The host's timer table.  Every timer of this component has the same
    callback, [() => { this.performSearch(); }].  Time is a logical clock in
    milliseconds; a timer's callback runs when the clock reaches its due
    time, before any event delivered at that time or later. *)

Record Browser := {
  page : BookSearch;
  clock : Z;
  timers : list (nat * Z);   (* pending timers: id, due time *)
  next_timer : nat;          (* the id the next [setTimeout] returns *)
  fired : list nat           (* ids of the timers whose callback has run *)
}.

Definition debounce_delay : Z := 300.

(** [clearTimeout(id)]; [undefined] and unknown ids are ignored. *)
Definition clearTimeout (id : option nat) (ts : list (nat * Z))
  : list (nat * Z) :=
  match id with
  | Some i => filter (fun p => p.1 ≠ i) ts
  | None => ts
  end.

(** [handleSearchChange(event)] with [event.target.value = value]. *)
Definition handleSearchChange (value : string) (w : Browser) : Browser :=
  let this := set_searchTerm value (page w) in
  let ts := clearTimeout (delayTimeout this) (timers w) in
  let id := next_timer w in
  {| page := set_delayTimeout (Some id) this;
     clock := clock w;
     timers := ts ++ [(id, clock w + debounce_delay)];
     next_timer := S id;
     fired := fired w |}.

(** The pending timer that is due first (the older one on a tie). *)
Fixpoint earliest (ts : list (nat * Z)) : option (nat * Z) :=
  match ts with
  | [] => None
  | p :: ts' =>
      match earliest ts' with
      | Some q => if q.2 <? p.2 then Some q else Some p
      | None => Some p
      end
  end.

(** Run the callback of timer [p]: [performSearch()] up to its [await]. *)
Definition fire (p : nat * Z) (w : Browser) : Browser :=
  {| page := performSearch_call (page w);
     clock := Z.max (clock w) p.2;
     timers := filter (fun q => q.1 ≠ p.1) (timers w);
     next_timer := next_timer w;
     fired := fired w ++ [p.1] |}.

Fixpoint run_timers (fuel : nat) (t : Z) (w : Browser) : Browser :=
  match fuel with
  | O => w
  | S fuel' =>
      match earliest (timers w) with
      | Some p => if p.2 <=? t then run_timers fuel' t (fire p w) else w
      | None => w
      end
  end.

(** Let time pass until [t]: every timer due by then fires, in order. *)
Definition advance (t : Z) (w : Browser) : Browser :=
  let w' := run_timers (length (timers w)) t w in
  {| page := page w'; clock := Z.max (clock w') t; timers := timers w';
     next_timer := next_timer w'; fired := fired w' |}.

(** A keystroke at time [t] that leaves [value] in the input. *)
Definition keystroke (k : Z * string) (w : Browser) : Browser :=
  handleSearchChange k.2 (advance k.1 w).

Definition type_keys (ks : list (Z * string)) (w : Browser) : Browser :=
  foldl (fun w k => keystroke k w) w ks.

(** Each keystroke comes less than 300ms after the one before, at [prev]. *)
Fixpoint quiet_gaps (prev : Z) (ks : list (Z * string)) : Prop :=
  match ks with
  | [] => True
  | k :: ks' => prev <= k.1 < prev + debounce_delay ∧ quiet_gaps k.1 ks'
  end.

(** The last keystroke of [k :: ks]. *)
Fixpoint final_key (k : Z * string) (ks : list (Z * string)) : Z * string :=
  match ks with
  | [] => k
  | k' :: ks' => final_key k' ks'
  end.

(** One timer is pending: the one [this.delayTimeout] names, set at [t0]. *)
Definition armed (w : Browser) (id : nat) (t0 : Z) : Prop :=
  timers w = [(id, t0 + debounce_delay)]
  ∧ delayTimeout (page w) = Some id
  ∧ clock w = t0
  ∧ next_timer w = S id.

(** ** Reading a rendered price back

    [read_cents] accepts exactly the strings ["$"], an optional ["-"], one or
    more decimal digits, ["."], two decimal digits, and returns the sign and
    the number of hundredths they denote. *)

Definition digit_value (c : ascii) : option Z :=
  let n := Z.of_nat (nat_of_ascii c) in
  if (48 <=? n) && (n <=? 57) then Some (n - 48) else None.

Fixpoint read_fixed (s : string) (acc : Z) (seen : bool) : option Z :=
  match s with
  | EmptyString => None
  | String c s' =>
      match digit_value c with
      | Some d => read_fixed s' (10 * acc + d) true
      | None =>
          if Ascii.eqb c "." && seen then
            match s' with
            | String c1 (String c2 EmptyString) =>
                match digit_value c1, digit_value c2 with
                | Some d1, Some d2 => Some (100 * acc + 10 * d1 + d2)
                | _, _ => None
                end
            | _ => None
            end
          else None
      end
  end.

Definition read_cents (s : string) : option (bool * Z) :=
  match s with
  | String c s' =>
      if Ascii.eqb c "$" then
        match s' with
        | String c' s'' =>
            if Ascii.eqb c' "-" then pair true <$> read_fixed s'' 0 false
            else pair false <$> read_fixed s' 0 false
        | EmptyString => None
        end
      else None
  | EmptyString => None
  end.

(** [|k / 10^f - m * 2^e|], scaled by [10^f * 2^(max 0 (-e))] to stay in the
    integers. *)
Definition scaled_dist (m : positive) (e : Z) (f : Z) (k : Z) : Z :=
  if 0 <=? e then Z.abs (k - Z.pos m * 2 ^ e * 10 ^ f)
  else Z.abs (k * 2 ^ (- e) - Z.pos m * 10 ^ f).

(** ** Sample data *)

Definition dune : RawBook :=
  {| Id := "1"; Name := "Dune"; Price__c := JsNum (JsNumber.of_Z 15);
     Language__c := "English"; Genre__c := "SciFi" |}.

Definition emma : RawBook :=
  {| Id := "2"; Name := "Emma"; Price__c := JsUndefined;
     Language__c := "English"; Genre__c := "Romance" |}.

Definition session : SessionInfo :=
  {| accessToken := "token"; sessionId := "session" |}.

(** The component after mount: session obtained, catalog loaded. *)
Definition mounted : BookSearch :=
  wiredBooks {| error := None; data := Some [dune; emma] |}
    (connectedCallback_settle (Resolved (Some session))
       (connectedCallback_call initial)).

(** The component after mount when the session service failed. *)
Definition mounted_no_session : BookSearch :=
  wiredBooks {| error := None; data := Some [dune; emma] |}
    (connectedCallback_settle Rejected (connectedCallback_call initial)).

(** How the handler leaves the button of a book that is, or is not, a
    favorite. *)
Definition button_showing (fav : bool) (id : string) : Button :=
  if fav then
    {| dataset_bookId := id; iconName := "utility:favorite";
       buttonVariant := "brand" |}
  else
    {| dataset_bookId := id; iconName := "utility:favorite_alt";
       buttonVariant := "border-filled" |}.

(** Between two clicks the agent call of the first one, if there is one, has
    settled with [r], or is still in flight ([None]). *)
Definition in_between (r : option (Settled (option string))) (a : Async)
  : BookSearch :=
  match r with
  | Some r => agent_settles r a
  | None => state_of a
  end.

(** Two clicks in succession on the same button. *)
Definition toggle_twice (r : option (Settled (option string)))
    (button : Button) (st : BookSearch) : Button * Async :=
  let first := handleFavoriteToggle button st in
  handleFavoriteToggle first.1 (in_between r first.2).

(** The claim that two clicks restore the favorites and the button. *)
Definition toggle_twice_restores (r : option (Settled (option string)))
    (button : Button) (st : BookSearch) : Prop :=
  let second := toggle_twice r button st in
  favoriteBooks (state_of second.2) = favoriteBooks st
  ∧ iconName second.1 = iconName button
  ∧ buttonVariant second.1 = buttonVariant button.

(** The catalog loader fires again after Dune was made a favorite. *)
Definition reloaded : BookSearch :=
  wiredBooks {| error := None; data := Some [dune; emma] |}
    (agent_settles (Resolved (Some "Try Foundation"))
       (handleFavoriteToggle (button_showing false "1") mounted).2).

(** The book the loader builds from a record. *)
Definition loaded (raw : RawBook) : Book :=
  {| fields := raw; isFavorite := false;
     priceFormatted := formatPrice (Price__c raw) |}.

(** Dune was made a favorite and the agent answered: the view is open. *)
Definition recommended : BookSearch :=
  agent_settles (Resolved (Some "Try Foundation"))
    (handleFavoriteToggle (button_showing false "1") mounted).2.

Definition quiet_browser (st : BookSearch) : Browser :=
  {| page := st; clock := 0; timers := []; next_timer := 1; fired := [] |}.

(** ** Getters *)

(** [get hasBooks()], as a truth value: [this.books] is always an array. *)
Definition hasBooks (st : BookSearch) : bool :=
  (0 <? length (books st))%nat.

(** White space and line terminators among the code units below 256: TAB,
    LF, VT, FF, CR, SP and NBSP.  A [string] is read as its sequence of code
    units. *)
Definition is_white (c : ascii) : bool :=
  let n := nat_of_ascii c in
  ((9 <=? n) && (n <=? 13) || (n =? 32) || (n =? 160))%nat.

Fixpoint trim_start (s : string) : string :=
  match s with
  | EmptyString => EmptyString
  | String c s' => if is_white c then trim_start s' else s
  end.

Fixpoint trim_end (s : string) : string :=
  match s with
  | EmptyString => EmptyString
  | String c s' =>
      match trim_end s' with
      | EmptyString => if is_white c then EmptyString else String c EmptyString
      | t => String c t
      end
  end.

(** [String.prototype.trim] *)
Definition trim (s : string) : string := trim_end (trim_start s).

(** [get hasRecommendations()], as a truth value: [''] is falsy. *)
Definition hasRecommendations (st : BookSearch) : bool :=
  negb (String.eqb (recommendations st) "")
  && (0 <? String.length (trim (recommendations st)))%nat.

(** Some character of [s] is not white space. *)
Fixpoint has_ink (s : string) : bool :=
  match s with
  | EmptyString => false
  | String c s' => negb (is_white c) || has_ink s'
  end.

(** ** The event loop

    The component in its host: the timer table, and how many remote calls of
    each kind are in flight.  An event is a delivery by the wire adapter, a
    lifecycle or DOM event, the passing of time, or the settling of a call
    that is in flight. *)

Record Runtime := {
  browser : Browser;
  session_in_flight : nat;
  search_in_flight : nat;
  agent_in_flight : nat
}.

Inductive Event :=
| EvWire (v : WireValue)
| EvConnected
| EvSessionSettled (r : Settled (option SessionInfo))
| EvKey (k : Z * string)
| EvTick (t : Z)
| EvClearSearch
| EvSearchSettled (r : Settled (list RawBook))
| EvClick (button : Button)
| EvAgentSettled (r : Settled (option string))
| EvClose.

Definition set_page (st : BookSearch) (w : Browser) : Browser :=
  {| page := st; clock := clock w; timers := timers w;
     next_timer := next_timer w; fired := fired w |}.

Definition this_of (r : Runtime) : BookSearch := page (browser r).

Definition initial_runtime : Runtime :=
  {| browser := {| page := initial; clock := 0; timers := [];
                   next_timer := 1; fired := [] |};
     session_in_flight := 0; search_in_flight := 0; agent_in_flight := 0 |}.

(** The host moved from [w] to [w']: the timers that fired in between each
    started a search. *)
Definition hosted (w' : Browser) (r : Runtime) : Runtime :=
  {| browser := w';
     session_in_flight := session_in_flight r;
     search_in_flight :=
       search_in_flight r + (length (fired w') - length (fired (browser r)));
     agent_in_flight := agent_in_flight r |}.

Definition awaiting (a : Async) : nat :=
  match a with Awaiting _ => 1 | Returned _ => 0 end.

(** One event; [None] when it cannot happen (time running backwards, a call
    settling that is not in flight). *)
Definition step (ev : Event) (r : Runtime) : option Runtime :=
  let w := browser r in
  match ev with
  | EvWire v => Some (hosted (set_page (wiredBooks v (page w)) w) r)
  | EvConnected =>
      Some {| browser := set_page (connectedCallback_call (page w)) w;
              session_in_flight := S (session_in_flight r);
              search_in_flight := search_in_flight r;
              agent_in_flight := agent_in_flight r |}
  | EvSessionSettled o =>
      match session_in_flight r with
      | S n =>
          Some {| browser := set_page (connectedCallback_settle o (page w)) w;
                  session_in_flight := n;
                  search_in_flight := search_in_flight r;
                  agent_in_flight := agent_in_flight r |}
      | O => None
      end
  | EvKey k => if clock w <=? k.1 then Some (hosted (keystroke k w) r) else None
  | EvTick t => if clock w <=? t then Some (hosted (advance t w) r) else None
  | EvClearSearch =>
      Some {| browser := set_page (handleClearSearch (page w)) w;
              session_in_flight := session_in_flight r;
              search_in_flight := S (search_in_flight r);
              agent_in_flight := agent_in_flight r |}
  | EvSearchSettled o =>
      match search_in_flight r with
      | S n =>
          Some {| browser := set_page (performSearch_settle o (page w)) w;
                  session_in_flight := session_in_flight r;
                  search_in_flight := n;
                  agent_in_flight := agent_in_flight r |}
      | O => None
      end
  | EvClick button =>
      let a := (handleFavoriteToggle button (page w)).2 in
      Some {| browser := set_page (state_of a) w;
              session_in_flight := session_in_flight r;
              search_in_flight := search_in_flight r;
              agent_in_flight := agent_in_flight r + awaiting a |}
  | EvAgentSettled o =>
      match agent_in_flight r with
      | S n =>
          Some {| browser := set_page (getRecommendations_settle o (page w)) w;
                  session_in_flight := session_in_flight r;
                  search_in_flight := search_in_flight r;
                  agent_in_flight := n |}
      | O => None
      end
  | EvClose => Some (hosted (set_page (handleCloseRecommendations (page w)) w) r)
  end.

Fixpoint run (evs : list Event) (r : Runtime) : option Runtime :=
  match evs with
  | [] => Some r
  | ev :: evs' =>
      match step ev r with
      | Some r' => run evs' r'
      | None => None
      end
  end.

(** The session call resolves with credentials. *)
Definition grants_session (ev : Event) : bool :=
  match ev with
  | EvSessionSettled (Resolved (Some _)) => true
  | _ => false
  end.

(** The wire adapter delivers data. *)
Definition delivers_data (ev : Event) : bool :=
  match ev with
  | EvWire v => match data v with Some _ => true | None => false end
  | _ => false
  end.

(** The book a click on [id] would toggle has a flag that agrees with
    membership of [id] in [favoriteBooks], for every [id]. *)
Definition synced (st : BookSearch) : Prop :=
  ∀ id i b,
    list_find (fun x => Id (fields x) = id) (books st) = Some (i, b) →
    (isFavorite b = true ↔ id ∈ favoriteBooks st).

(** At most one timer is pending, and [this.delayTimeout] names it. *)
Definition one_timer (w : Browser) : Prop :=
  timers w = []
  ∨ ∃ id due, timers w = [(id, due)] ∧ delayTimeout (page w) = Some id.

(** What a run of keystrokes searches for, by the time [T]: the text of each
    keystroke that the next one follows by 300ms or more, and of the last one
    if [T] is 300ms or more after it.  [pending] is the keystroke whose timer
    is waiting. *)
Definition due_search (pending : option (Z * string)) (t : Z) : list string :=
  match pending with
  | Some k => if k.1 + debounce_delay <=? t then [k.2] else []
  | None => []
  end.

Fixpoint debounced (pending : option (Z * string)) (ks : list (Z * string))
    (T : Z) : list string :=
  match ks with
  | [] => due_search pending T
  | k :: ks' => due_search pending k.1 ++ debounced (Some k) ks' T
  end.

(** The keystrokes come in order of time, none before [prev]. *)
Fixpoint in_order (prev : Z) (ks : list (Z * string)) : Prop :=
  match ks with
  | [] => True
  | k :: ks' => prev <= k.1 ∧ in_order k.1 ks'
  end.

(** What starting a search leaves alone: everything but [isLoading] and the
    search calls in the trace. *)
Definition backstage (st : BookSearch) :=
  (books st, favoriteBooks st, sessionInfo st, showRecommendations st,
   recommendations st, selectedBookName st, agent_calls (trace st),
   toasts (trace st)).

(** Every data delivery of the run comes while there are no favorites. *)
Fixpoint safe_reloads (evs : list Event) (r : Runtime) : Prop :=
  match evs with
  | [] => True
  | ev :: evs' =>
      (delivers_data ev = true → favoriteBooks (this_of r) = ∅)
      ∧ match step ev r with
        | Some r' => safe_reloads evs' r'
        | None => True
        end
  end.

(** A session that fails to start, the catalog, a favorite, a debounced
    search, a second click and a close. *)
Definition events_without_session : list Event :=
  [ EvConnected; EvSessionSettled Rejected;
    EvWire {| error := None; data := Some [dune; emma] |};
    EvClick (button_showing false "1");
    EvKey (0, "Du"); EvTick 400; EvSearchSettled (Resolved [dune]);
    EvClick (button_showing true "1"); EvClose ].

(** A session, the catalog, a favorite with its recommendation, a search that
    fails, a close and an unfavorite. *)
Definition events_with_session : list Event :=
  [ EvConnected; EvSessionSettled (Resolved (Some session));
    EvWire {| error := None; data := Some [dune; emma] |};
    EvClick (button_showing false "2");
    EvAgentSettled (Resolved None);
    EvKey (0, "Em"); EvKey (100, "Emm"); EvTick 500;
    EvSearchSettled Rejected; EvClose;
    EvClick (button_showing true "2") ].

(** [m1 * 2^e1 <= m2 * 2^e2], on integers. *)
Definition value_le (m1 : positive) (e1 : Z) (m2 : positive) (e2 : Z) : Prop :=
  let h := Z.min (Z.min e1 e2) 0 in
  Z.pos m1 * 2 ^ (e1 - h) <= Z.pos m2 * 2 ^ (e2 - h).

(** The recommendation view: visible, for which book, with what text. *)
Definition view (st : BookSearch) : bool * string * string :=
  (showRecommendations st, selectedBookName st, recommendations st).

(** Events that leave [selectedBookName] alone: all but a click on a
    favorite button and the close of the view. *)
Definition keeps_selection (ev : Event) : bool :=
  match ev with
  | EvClick _ | EvClose => false
  | _ => true
  end.

(** An agent call resolves. *)
Definition opens_view (ev : Event) : bool :=
  match ev with
  | EvAgentSettled (Resolved _) => true
  | _ => false
  end.

(** Dune and then Emma are made favorites, both agent calls in flight. *)
Definition two_in_flight : BookSearch :=
  state_of
    (handleFavoriteToggle (button_showing false "2")
       (state_of (handleFavoriteToggle (button_showing false "1") mounted).2)).2.

(** One agent call in flight, for [raw], right after the call. *)
Definition awaiting_agent (raw : RawBook) : Runtime :=
  {| browser :=
       quiet_browser (state_of (getRecommendations_call (loaded raw) mounted));
     session_in_flight := 0; search_in_flight := 0; agent_in_flight := 1 |}.

(** * Properties *)

(** ** Frame facts about the setters and [showToast] *)

Lemma showToast_trace t m v st :
  trace (showToast t m v st)
  = trace st ++ [DispatchEvent {| title := t; message := m; variant := v |}].
Proof. reflexivity. Qed.

Lemma toasts_app tr1 tr2 : toasts (tr1 ++ tr2) = toasts tr1 ++ toasts tr2.
Proof. unfold toasts. apply omap_app. Qed.

Lemma agent_calls_app tr1 tr2 :
  agent_calls (tr1 ++ tr2) = agent_calls tr1 ++ agent_calls tr2.
Proof. unfold agent_calls. apply omap_app. Qed.

Lemma search_calls_app tr1 tr2 :
  search_calls (tr1 ++ tr2) = search_calls tr1 ++ search_calls tr2.
Proof. unfold search_calls. apply omap_app. Qed.

(** ** Search *)

Section Search.

Variable st : BookSearch.

(** C2.  When the search call resolves with [result], [this.books] becomes
    the image of [result], element by element and nothing else: the i-th book
    carries the i-th record, its [isFavorite] is membership of the record's
    [Id] in [favoriteBooks] at that moment, and its [priceFormatted] is
    [formatPrice] of the record's price.  A search for "Dune" that returns the
    one record of Dune leaves exactly one entry, priced "$15.00". *)
Theorem performSearch_replaces_books (result : list RawBook) :
  let st' := performSearch_settle (Resolved result) st in
  length (books st') = length result
  ∧ (∀ i raw, result !! i = Some raw →
       ∃ b, books st' !! i = Some b
            ∧ fields b = raw
            ∧ (isFavorite b = true ↔ Id raw ∈ favoriteBooks st)
            ∧ priceFormatted b = formatPrice (Price__c raw))
  ∧ favoriteBooks (performSearch_call st) = favoriteBooks st
  ∧ books (performSearch (Resolved [dune]) (set_searchTerm "Dune" st))
    = [ {| fields := dune;
           isFavorite := bool_decide ("1" ∈ favoriteBooks st);
           priceFormatted := "$15.00" |} ].
Proof.
  cbn zeta. repeat split.
  - cbn. by rewrite length_map.
  - intros i raw Hi. cbn. rewrite list_lookup_fmap, Hi. cbn.
    eexists; repeat split; cbn.
    + apply bool_decide_eq_true_1.
    + apply bool_decide_eq_true_2.
Qed.


End Search.

(** ** The catalog loader *)

(** C6.  With data, every book [wiredBooks] builds has [isFavorite = false],
    whatever [favoriteBooks] holds, and [priceFormatted] from its price; with
    an error and no data, the trace grows by the one toast "Failed to load
    books" and everything else, [this.books] included, stays. *)
Theorem wiredBooks_outcomes (st : BookSearch) (d : list RawBook)
    (err : option string) (msg : string) :
  (let st' := wiredBooks {| error := err; data := Some d |} st in
   length (books st') = length d
   ∧ (∀ i raw, d !! i = Some raw →
        books st' !! i
        = Some {| fields := raw; isFavorite := false;
                  priceFormatted := formatPrice (Price__c raw) |})
   ∧ (∀ b, b ∈ books st' → isFavorite b = false)
   ∧ trace st' = trace st)
  ∧ (let st' := wiredBooks {| error := Some msg; data := None |} st in
     st' = showToast "Error" "Failed to load books" "error" st
     ∧ books st' = books st
     ∧ toasts (trace st')
       = toasts (trace st)
         ++ [ {| title := "Error"; message := "Failed to load books";
                 variant := "error" |} ]).
Proof.
  cbn zeta. split; [split; [|split; [|split]] | split; [|split]]; try done.
  - cbn. by rewrite length_map.
  - intros i raw Hi. cbn. by rewrite list_lookup_fmap, Hi.
  - intros b Hb. cbn in Hb. apply list_elem_of_fmap in Hb as (raw & -> & _).
    done.
  - cbn. by rewrite toasts_app.
Qed.

(** ** Recommendations *)

Section Recommendations.

Variables (book : Book) (st : BookSearch).

(** C7.  Without a session, [getRecommendations] returns at once: the trace
    grows by the one toast "Recommendation service not initialized", so the
    agent is not called, [showRecommendations] is not set, and the books and
    the favorites are what the toggle left. *)
Theorem getRecommendations_no_session (r : Settled (option string)) :
  sessionInfo st = None →
  getRecommendations_call book st
  = Returned (showToast "Error" "Recommendation service not initialized"
                "error" st)
  ∧ let st' := getRecommendations book r st in
    trace st' = trace st ++ [DispatchEvent not_initialized]
    ∧ toasts (trace st') = toasts (trace st) ++ [not_initialized]
    ∧ agent_calls (trace st') = agent_calls (trace st)
    ∧ showRecommendations st' = showRecommendations st
    ∧ favoriteBooks st' = favoriteBooks st
    ∧ books st' = books st.
Proof.
  intros Hs. unfold getRecommendations, getRecommendations_call.
  rewrite Hs. cbn. repeat split.
  - by rewrite toasts_app.
  - rewrite agent_calls_app. cbn. by rewrite app_nil_r.
Qed.

(** C10.  Without a session, [getRecommendations] changes no field of the
    component: [selectedBookName], [recommendations], [showRecommendations]
    and [isLoading] are what they were, and so is every other field; only the
    trace grows, by the toast. *)
Theorem getRecommendations_no_session_frame (r : Settled (option string)) :
  sessionInfo st = None →
  let st' := getRecommendations book r st in
  selectedBookName st' = selectedBookName st
  ∧ recommendations st' = recommendations st
  ∧ showRecommendations st' = showRecommendations st
  ∧ isLoading st' = isLoading st
  ∧ books st' = books st
  ∧ searchTerm st' = searchTerm st
  ∧ favoriteBooks st' = favoriteBooks st
  ∧ sessionInfo st' = sessionInfo st
  ∧ delayTimeout st' = delayTimeout st
  ∧ trace st' = trace st ++ [DispatchEvent not_initialized]
  ∧ agent_calls (trace st') = agent_calls (trace st).
Proof.
  intros Hs. unfold getRecommendations, getRecommendations_call.
  rewrite Hs. cbn [agent_settles]. repeat split; try done.
  rewrite showToast_trace, agent_calls_app. cbn. by rewrite app_nil_r.
Qed.

End Recommendations.

(** ** The favorite toggle *)

Lemma set_isFavorite_id b : set_isFavorite (isFavorite b) b = b.
Proof. by destruct b. Qed.

Lemma set_isFavorite_twice v w b :
  set_isFavorite v (set_isFavorite w b) = set_isFavorite v b.
Proof. reflexivity. Qed.

Lemma list_find_insert_same {A} (P : A → Prop) `{!∀ x, Decision (P x)}
    (l : list A) i x y :
  list_find P l = Some (i, x) → P y → list_find P (<[i := y]> l) = Some (i, y).
Proof.
  intros (Hi & _ & Hleast)%list_find_Some Hy.
  apply list_find_insert_Some. right; left.
  split_and!; eauto using lookup_lt_Some.
Qed.

(** The recommendation request a click starts touches neither the books nor
    the favorites, whether it has settled or not. *)
Lemma in_between_getRecommendations r book st :
  let st' := in_between r (getRecommendations_call book st) in
  books st' = books st ∧ favoriteBooks st' = favoriteBooks st.
Proof.
  unfold getRecommendations_call.
  destruct (sessionInfo st), r as [[?|]|]; done.
Qed.

(** What one click does when the book is found. *)
Lemma handleFavoriteToggle_found r button st i b :
  list_find (fun x => Id (fields x) = dataset_bookId button) (books st)
  = Some (i, b) →
  let click := handleFavoriteToggle button st in
  let id := dataset_bookId button in
  books (in_between r click.2)
  = <[i := set_isFavorite (negb (isFavorite b)) b]> (books st)
  ∧ favoriteBooks (in_between r click.2)
    = (if isFavorite b then favoriteBooks st ∖ {[id]}
       else {[id]} ∪ favoriteBooks st)
  ∧ click.1 = button_showing (negb (isFavorite b)) id.
Proof.
  intros Hfind. unfold handleFavoriteToggle. rewrite Hfind. cbn.
  destruct (isFavorite b); cbn.
  - by destruct r.
  - match goal with
    | |- context [getRecommendations_call ?bk ?s] =>
        destruct (in_between_getRecommendations r bk s) as [-> ->]
    end.
    done.
Qed.

Lemma button_showing_id fav id : dataset_bookId (button_showing fav id) = id.
Proof. by destruct fav. Qed.

(** C5, as the code has it.  When the first book with the button's id has an
    [isFavorite] flag that agrees with membership of the id in
    [favoriteBooks], two clicks in succession leave [favoriteBooks] and
    [this.books] as they were, and the button with the icon and variant of
    the book's flag: the button is as it was if it showed the flag before. *)
Theorem toggle_twice_involutive r button st i b :
  list_find (fun x => Id (fields x) = dataset_bookId button) (books st)
  = Some (i, b) →
  (isFavorite b = true ↔ dataset_bookId button ∈ favoriteBooks st) →
  let second := toggle_twice r button st in
  favoriteBooks (state_of second.2) = favoriteBooks st
  ∧ books (state_of second.2) = books st
  ∧ second.1 = button_showing (isFavorite b) (dataset_bookId button)
  ∧ (button = button_showing (isFavorite b) (dataset_bookId button) →
     toggle_twice_restores r button st).
Proof.
  intros Hfind Hagree.
  pose proof (handleFavoriteToggle_found r _ _ _ _ Hfind) as (Hbk & Hfv & Hbt).
  pose proof (proj1 (list_find_Some _ _ _ _) Hfind) as (Hb & Hid & _).
  set (b' := set_isFavorite (negb (isFavorite b)) b) in *.
  assert (Hfind' :
    list_find
      (fun x => Id (fields x)
                = dataset_bookId (handleFavoriteToggle button st).1)
      (books (in_between r (handleFavoriteToggle button st).2))
    = Some (i, b')).
  { rewrite Hbk, Hbt, button_showing_id.
    by apply (list_find_insert_same _ _ _ _ _ Hfind). }
  pose proof (handleFavoriteToggle_found None _ _ _ _ Hfind')
    as (Hbk2 & Hfv2 & Hbt2).
  fold (toggle_twice r button st) in Hbk2, Hfv2, Hbt2.
  cbn [in_between] in Hbk2, Hfv2.
  assert (Hgoal :
    favoriteBooks (state_of (toggle_twice r button st).2) = favoriteBooks st
    ∧ books (state_of (toggle_twice r button st).2) = books st
    ∧ (toggle_twice r button st).1
      = button_showing (isFavorite b) (dataset_bookId button)).
  { rewrite Hbk2, Hfv2, Hbt2, Hbk, Hfv, Hbt, button_showing_id.
    subst b'. cbn [isFavorite set_isFavorite].
    rewrite list_insert_insert_eq, negb_involutive.
    split_and!.
    - destruct (isFavorite b) eqn:Hfav; cbn.
      + assert (dataset_bookId button ∈ favoriteBooks st) by by apply Hagree.
        apply set_eq. intros x.
        rewrite elem_of_union, elem_of_difference, elem_of_singleton.
        split.
        * intros [-> | [Hx _]]; assumption.
        * intros Hx. destruct (decide (x = dataset_bookId button)); auto.
      + assert (dataset_bookId button ∉ favoriteBooks st).
        { intros Hin. apply Hagree in Hin. congruence. }
        apply set_eq. intros x.
        rewrite elem_of_difference, elem_of_union, elem_of_singleton.
        split.
        * intros [[-> | Hx] Hne]; [congruence | assumption].
        * intros Hx. split; [by right | congruence].
    - apply list_insert_id. rewrite Hb. f_equal. by destruct b.
    - done. }
  destruct Hgoal as (H1 & H2 & H3). cbn zeta. split_and!; try done.
  intros Hshow. unfold toggle_twice_restores. cbn zeta.
  rewrite H1, H3. by rewrite <- Hshow.
Qed.

(** C5 as stated fails once the loader has fired again: Dune is in
    [favoriteBooks] but its reloaded book is not flagged, so the first click
    adds an id that is already there and the second removes it. *)
Lemma toggle_twice_after_reload :
  (∃ b, b ∈ books reloaded ∧ Id (fields b) = "1")
  ∧ "1" ∈ favoriteBooks reloaded
  ∧ ¬ toggle_twice_restores None (button_showing false "1") reloaded
  ∧ ¬ toggle_twice_restores None (button_showing true "1") reloaded.
Proof.
  split_and!.
  - eexists. split; [apply list_elem_of_here | reflexivity].
  - refine (bool_decide_unpack _ _). vm_compute. exact I.
  - intros (H & _).
    apply (f_equal (fun s => bool_decide ("1" ∈ s))) in H.
    vm_compute in H. discriminate H.
  - intros (H & _).
    apply (f_equal (fun s => bool_decide ("1" ∈ s))) in H.
    vm_compute in H. discriminate H.
Qed.

Lemma toggle_twice_involutive_witness :
  toggle_twice_restores (Some (Resolved (Some "Try Foundation")))
    (button_showing false "1") mounted.
Proof.
  refine (proj2 (proj2 (proj2
    (toggle_twice_involutive (Some (Resolved (Some "Try Foundation")))
       (button_showing false "1") mounted 0
       {| fields := dune; isFavorite := false; priceFormatted := "$15.00" |}
       eq_refl _))) eq_refl).
  split; [discriminate | intros H; exfalso].
  apply (bool_decide_pack _) in H. vm_compute in H. exact H.
Defined.

(** ** Instances on the sample data *)

Lemma getRecommendations_no_session_witness :
  sessionInfo mounted_no_session = None
  ∧ agent_calls (trace (getRecommendations (loaded dune) Rejected
                          mounted_no_session)) = [].
Proof.
  split; [reflexivity|].
  exact (proj1 (proj2 (proj2 (proj2
    (getRecommendations_no_session (loaded dune) mounted_no_session Rejected
       eq_refl))))).
Defined.

Lemma getRecommendations_no_session_frame_witness :
  isLoading (getRecommendations (loaded dune) Rejected mounted_no_session)
  = false.
Proof.
  exact (proj1 (proj2 (proj2 (proj2
    (getRecommendations_no_session_frame (loaded dune) mounted_no_session
       Rejected eq_refl))))).
Defined.

(** C9 as stated fails when the view is already open: after Dune's
    recommendation is shown, favoriting Emma with a failing agent call leaves
    the view shown, now under Emma's name with Dune's text. *)
Lemma getRecommendations_failure_view_open :
  let clicked := handleFavoriteToggle (button_showing false "2") recommended in
  let st' := agent_settles Rejected clicked.2 in
  is_Some (sessionInfo recommended)
  ∧ showRecommendations st' ≠ false
  ∧ (showRecommendations st', selectedBookName st', recommendations st')
    = (true, "Emma", "Try Foundation")
  ∧ showRecommendations
      (getRecommendations (loaded emma) Rejected recommended) ≠ false.
Proof.
  cbn zeta. split_and!.
  - by eexists.
  - discriminate.
  - reflexivity.
  - discriminate.
Qed.

(** ** Debounce *)

Lemma clearTimeout_only id due :
  clearTimeout (Some id) [(id, due)] = [].
Proof.
  unfold clearTimeout. rewrite filter_cons. cbn.
  by destruct (decide (id ≠ id)).
Qed.

(** A keystroke in a quiet browser arms one timer. *)
Lemma keystroke_quiet w k :
  timers w = [] → clock w <= k.1 →
  let w' := keystroke k w in
  armed w' (next_timer w) k.1
  ∧ searchTerm (page w') = k.2
  ∧ trace (page w') = trace (page w)
  ∧ fired w' = fired w.
Proof.
  intros Ht Hc. unfold keystroke, advance, handleSearchChange, armed.
  rewrite Ht. cbn. rewrite Ht.
  destruct (delayTimeout (page w)); cbn; rewrite ?filter_nil;
    repeat split; rewrite Z.max_r by lia; done.
Qed.

(** A keystroke before the pending timer is due replaces it: nothing fires. *)
Lemma keystroke_armed w id t0 k :
  armed w id t0 → t0 <= k.1 < t0 + debounce_delay →
  let w' := keystroke k w in
  armed w' (S id) k.1
  ∧ searchTerm (page w') = k.2
  ∧ trace (page w') = trace (page w)
  ∧ fired w' = fired w.
Proof.
  intros (Ht & Hd & Hc & Hn) Hk.
  unfold keystroke, advance, handleSearchChange, armed.
  rewrite Ht. cbn. rewrite Ht. cbn.
  destruct (Z.leb_spec (t0 + debounce_delay) k.1); [lia|].
  cbn. rewrite Ht, Hd, Hn, Hc, clearTimeout_only. cbn.
  repeat split; rewrite Z.max_r by lia; done.
Qed.

Lemma type_keys_armed ks : ∀ w id k,
  armed w id k.1 → searchTerm (page w) = k.2 → quiet_gaps k.1 ks →
  let w' := type_keys ks w in
  armed w' (id + length ks) (final_key k ks).1
  ∧ searchTerm (page w') = (final_key k ks).2
  ∧ trace (page w') = trace (page w)
  ∧ fired w' = fired w.
Proof.
  induction ks as [|k' ks IH]; intros w id k Ha Hs Hq; cbn.
  - by rewrite Nat.add_0_r.
  - destruct Hq as [Hk Hq].
    destruct (keystroke_armed w id k.1 k' Ha Hk) as (Ha' & Hs' & Htr & Hf).
    destruct (IH (keystroke k' w) (S id) k' Ha' Hs' Hq) as (? & ? & ? & ?).
    replace (id + S (length ks))%nat with (S id + length ks)%nat by lia.
    fold (type_keys ks (keystroke k' w)).
    split_and!; try done; congruence.
Qed.

(** When the pending timer is due it fires: one search, with the current
    term. *)
Lemma advance_armed w id t0 T :
  armed w id t0 → t0 + debounce_delay <= T →
  let w' := advance T w in
  trace (page w') = trace (page w) ++ [GetBooks (searchTerm (page w))]
  ∧ isLoading (page w') = true
  ∧ fired w' = fired w ++ [id]
  ∧ timers w' = [].
Proof.
  intros (Ht & Hd & Hc & Hn) HT. unfold advance. rewrite Ht. cbn.
  rewrite Ht. cbn.
  destruct (Z.leb_spec (t0 + debounce_delay) T); [|lia].
  cbn. rewrite Ht, filter_cons. cbn.
  by destruct (decide (id ≠ id)).
Qed.

(** Before it is due nothing happens. *)
Lemma advance_armed_early w id t0 t :
  armed w id t0 → t < t0 + debounce_delay →
  let w' := advance t w in
  trace (page w') = trace (page w) ∧ fired w' = fired w.
Proof.
  intros (Ht & Hd & Hc & Hn) HT. unfold advance. rewrite Ht. cbn.
  rewrite Ht. cbn.
  by destruct (Z.leb_spec (t0 + debounce_delay) t); [lia|].
Qed.

(** C4.  Keystrokes [k :: ks], each less than 300ms after the one before,
    typed into a browser with no pending timer: once 300ms have passed since
    the last one, the trace has grown by exactly one search call, with the
    text of the last keystroke, and the only timer that has fired is the one
    the last keystroke set (the earlier ones, with the ids [next_timer w] to
    [next_timer w + length ks - 1], have not); until then no call is made. *)
Theorem debounce_one_search (w : Browser) (k : Z * string)
    (ks : list (Z * string)) (T : Z) :
  timers w = [] →
  clock w <= k.1 →
  quiet_gaps k.1 ks →
  (final_key k ks).1 + debounce_delay <= T →
  let typed := type_keys (k :: ks) w in
  let w' := advance T typed in
  trace (page w') = trace (page w) ++ [GetBooks (final_key k ks).2]
  ∧ search_calls (trace (page w'))
    = search_calls (trace (page w)) ++ [(final_key k ks).2]
  ∧ fired w' = fired w ++ [(next_timer w + length ks)%nat]
  ∧ timers w' = []
  ∧ (∀ t, t < (final_key k ks).1 + debounce_delay →
       trace (page (advance t typed)) = trace (page w)
       ∧ fired (advance t typed) = fired w).
Proof.
  intros Ht Hc Hq HT. cbn zeta. unfold type_keys. cbn [foldl].
  destruct (keystroke_quiet w k Ht Hc) as (Ha & Hs & Htr & Hf).
  destruct (type_keys_armed ks _ _ k Ha Hs Hq) as (Ha' & Hs' & Htr' & Hf').
  fold (type_keys ks (keystroke k w)).
  destruct (advance_armed _ _ _ T Ha' HT) as (Htr2 & _ & Hf2 & Ht2).
  rewrite Htr2, Hf2, Ht2, Hs', Htr', Hf', Htr, Hf.
  split_and!; try done.
  - rewrite search_calls_app. done.
  - intros t Hlt.
    destruct (advance_armed_early _ _ _ t Ha' Hlt) as [E1 E2].
    split; congruence.
Qed.

Lemma debounce_one_search_witness :
  search_calls
    (trace (page (advance 700
       (type_keys [(0, "D"); (100, "Du"); (250, "Dun"); (400, "Dune")]
          (quiet_browser mounted)))))
  = ["Dune"].
Proof.
  refine (proj1 (proj2
    (debounce_one_search (quiet_browser mounted) (0, "D")
       [(100, "Du"); (250, "Dun"); (400, "Dune")] 700 eq_refl _ _ _))).
  - cbn. lia.
  - cbn. unfold debounce_delay. lia.
  - cbn. unfold debounce_delay. lia.
Defined.

(** A pause of 300ms or more ends the window: the first timer fires and two
    searches are made. *)
Example two_bursts :
  search_calls
    (trace (page (advance 700
       (type_keys [(0, "D"); (300, "Du")] (quiet_browser mounted)))))
  = ["D"; "Du"].
Proof. reflexivity. Qed.

(** Favoriting without a session: the favorite is committed, nothing is
    awaited, the view stays closed. *)
Example favorite_without_session :
  let clicked := handleFavoriteToggle (button_showing false "1")
                   mounted_no_session in
  clicked.1 = button_showing true "1"
  ∧ clicked.2 = Returned (state_of clicked.2)
  ∧ favoriteBooks (state_of clicked.2) = {["1"]} ∪ ∅
  ∧ isFavorite <$> books (state_of clicked.2) = [true; false]
  ∧ showRecommendations (state_of clicked.2) = false
  ∧ agent_calls (trace (state_of clicked.2)) = [].
Proof. cbn zeta. split_and!; reflexivity. Qed.

(** ** Decimal digits *)

Lemma app_cons c a b : String c a +:+ b = String c (a +:+ b).
Proof. reflexivity. Qed.

Lemma app_empty_l s : "" +:+ s = s.
Proof. reflexivity. Qed.

Lemma app_assoc_str a b c : (a +:+ b) +:+ c = a +:+ (b +:+ c).
Proof.
  induction a as [|x a IH]; [reflexivity|].
  by rewrite !app_cons, IH.
Qed.

Lemma length_app_str a b :
  String.length (a +:+ b) = (String.length a + String.length b)%nat.
Proof.
  induction a as [|x a IH]; [reflexivity|].
  rewrite app_cons. cbn. by rewrite IH.
Qed.

Lemma substring_all s : substring 0 (String.length s) s = s.
Proof. induction s as [|c s IH]; cbn; [done | by rewrite IH]. Qed.

Lemma str_take_app a b : JsNumber.str_take (String.length a) (a +:+ b) = a.
Proof.
  unfold JsNumber.str_take. induction a as [|x a IH].
  - rewrite app_empty_l. by destruct b.
  - rewrite app_cons. cbn. by rewrite IH.
Qed.

Lemma str_drop_app a b : JsNumber.str_drop (String.length a) (a +:+ b) = b.
Proof.
  unfold JsNumber.str_drop. rewrite length_app_str.
  replace (String.length a + String.length b - String.length a)%nat
    with (String.length b) by lia.
  induction a as [|x a IH].
  - rewrite app_empty_l. apply substring_all.
  - rewrite app_cons. cbn. apply IH.
Qed.

Lemma decimal_fuel_acc fuel : ∀ n acc,
  JsNumber.decimal_fuel fuel n acc = JsNumber.decimal_fuel fuel n "" +:+ acc.
Proof.
  induction fuel as [|fuel IH]; intros n acc; cbn; [done|].
  destruct (n <? 10); [done|].
  rewrite IH, (IH _ (String _ "")). by rewrite app_assoc_str.
Qed.

Lemma decimal_fuel_enough f : ∀ g n acc,
  (f ≤ g)%nat → 0 <= n < 2 ^ Z.of_nat (S f) →
  JsNumber.decimal_fuel (S f) n acc = JsNumber.decimal_fuel (S g) n acc.
Proof.
  induction f as [|f IH]; intros g n acc Hfg Hn.
  - cbn. destruct (Z.ltb_spec n 10); [done|].
    change (2 ^ Z.of_nat 1) with 2 in Hn. lia.
  - destruct g as [|g]; [lia|].
    cbn [JsNumber.decimal_fuel]. destruct (Z.ltb_spec n 10); [done|].
    apply IH; [lia|].
    rewrite Nat2Z.inj_succ, Z.pow_succ_r in Hn by lia.
    split; [apply Z.div_pos; lia|].
    apply Z.div_lt_upper_bound; lia.
Qed.

Lemma decimal_small n :
  0 <= n < 10 → JsNumber.decimal n = String (JsNumber.digit_char n) "".
Proof.
  intros Hn. unfold JsNumber.decimal. cbn.
  destruct (Z.ltb_spec n 10); [|lia]. by rewrite Z.mod_small.
Qed.

Lemma decimal_step n :
  10 <= n →
  JsNumber.decimal n
  = JsNumber.decimal (n / 10) +:+ String (JsNumber.digit_char (n mod 10)) "".
Proof.
  intros Hn. unfold JsNumber.decimal.
  cbn [JsNumber.decimal_fuel]. destruct (Z.ltb_spec n 10); [lia|].
  rewrite decimal_fuel_acc. f_equal.
  assert (Hq : 1 <= n / 10) by (apply Z.div_le_lower_bound; lia).
  assert (Hlog : Z.log2 (n / 10) < Z.log2 n).
  { apply Z.log2_lt_pow2; [lia|].
    pose proof (Z.log2_spec n ltac:(lia)) as [Hlo Hhi].
    rewrite Z.pow_succ_r in Hhi by apply Z.log2_nonneg.
    apply Z.div_lt_upper_bound; lia. }
  pose proof (Z.log2_nonneg (n / 10)).
  destruct (Z.to_nat (Z.log2 n)) as [|F] eqn:HF; [lia|].
  symmetry. apply decimal_fuel_enough; [lia|].
  split; [lia|].
  rewrite Nat2Z.inj_succ, Z2Nat.id by lia.
  apply Z.log2_spec. lia.
Qed.

Lemma length_decimal_pos n : 0 <= n → (1 ≤ String.length (JsNumber.decimal n))%nat.
Proof.
  intros Hn. destruct (Z.lt_ge_cases n 10).
  - by rewrite decimal_small.
  - rewrite decimal_step, length_app_str by done. cbn. lia.
Qed.

Lemma digit_value_char d :
  0 <= d <= 9 → digit_value (JsNumber.digit_char d) = Some d.
Proof.
  intros Hd.
  assert (d = 0 ∨ d = 1 ∨ d = 2 ∨ d = 3 ∨ d = 4 ∨ d = 5 ∨ d = 6 ∨ d = 7
          ∨ d = 8 ∨ d = 9) as Hcases by lia.
  repeat destruct Hcases as [-> | Hcases]; try reflexivity.
  by subst.
Qed.

Lemma digit_not_minus c d : digit_value c = Some d → Ascii.eqb c "-" = false.
Proof.
  intros H. destruct (Ascii.eqb_spec c "-") as [-> | _]; [|done].
  vm_compute in H. discriminate H.
Qed.

(** [decimal n] starts with a digit. *)
Lemma decimal_head n :
  0 <= n →
  ∃ c s d, JsNumber.decimal n = String c s ∧ digit_value c = Some d.
Proof.
  intros Hn. revert Hn. pattern n. apply (well_founded_induction (Z.lt_wf 0)).
  clear n. intros n IH Hn. destruct (Z.lt_ge_cases n 10).
  - rewrite decimal_small by lia. do 3 eexists. split; [done|].
    apply digit_value_char. lia.
  - destruct (IH (n / 10)) as (c & s & d & Hs & Hd).
    + split; [apply Z.div_pos; lia | apply Z.div_lt; lia].
    + apply Z.div_pos; lia.
    + rewrite decimal_step, Hs, app_cons by done. by do 3 eexists.
Qed.

(** Reading [decimal n] accumulates [n]. *)
Lemma read_fixed_decimal n :
  0 <= n → ∀ rest acc seen,
  read_fixed (JsNumber.decimal n +:+ rest) acc seen
  = read_fixed rest
      (acc * 10 ^ Z.of_nat (String.length (JsNumber.decimal n)) + n) true.
Proof.
  intros Hn. revert Hn. pattern n. apply (well_founded_induction (Z.lt_wf 0)).
  clear n. intros n IH Hn rest acc seen. destruct (Z.lt_ge_cases n 10).
  - rewrite decimal_small, app_cons, app_empty_l by lia. cbn [read_fixed].
    rewrite digit_value_char by lia. cbn [String.length]. f_equal.
    change (10 ^ Z.of_nat 1) with 10. lia.
  - rewrite decimal_step, app_assoc_str, app_cons, app_empty_l by done.
    rewrite IH.
    + cbn [read_fixed].
      rewrite digit_value_char by (pose proof (Z.mod_pos_bound n 10); lia).
      f_equal. rewrite length_app_str. cbn [String.length].
      rewrite Nat2Z.inj_add, Z.pow_add_r by lia.
      change (10 ^ Z.of_nat 1) with 10.
      pose proof (Z.div_mod n 10 ltac:(lia)). lia.
    + split; [apply Z.div_pos; lia | apply Z.div_lt; lia].
    + apply Z.div_pos; lia.
Qed.

(** [toFixed]'s padding and splitting, for two digits: the integer part of
    [n / 100], a point, and the two digits of [n mod 100]. *)
Lemma fixed_digits_2 n :
  0 <= n →
  JsNumber.fixed_digits n 2
  = JsNumber.decimal (n / 100) +:+ "." +:+
    String (JsNumber.digit_char (n / 10 mod 10))
      (String (JsNumber.digit_char (n mod 10)) "").
Proof.
  intros Hn. unfold JsNumber.fixed_digits.
  destruct (Z.lt_ge_cases n 10) as [H10 | H10].
  - rewrite (decimal_small n) by lia.
    rewrite (Z.div_small n 100), (Z.div_small n 10), (Z.mod_small n 10) by lia.
    reflexivity.
  - rewrite (decimal_step n) by lia.
    destruct (Z.lt_ge_cases n 100) as [H100 | H100].
    + assert (0 <= n / 10 < 10).
      { split; [apply Z.div_pos; lia | apply Z.div_lt_upper_bound; lia]. }
      rewrite (decimal_small (n / 10)) by lia.
      rewrite (Z.div_small n 100), (Z.mod_small (n / 10) 10) by lia.
      reflexivity.
    + assert (10 <= n / 10) by (apply Z.div_le_lower_bound; lia).
      rewrite (decimal_step (n / 10)) by lia.
      rewrite Z.div_div by lia. change (10 * 10) with 100.
      rewrite app_assoc_str, app_cons, app_empty_l.
      set (A := JsNumber.decimal (n / 100)).
      set (B := String _ (String _ "")).
      assert (1 ≤ String.length A)%nat.
      { apply length_decimal_pos. apply Z.div_pos; lia. }
      rewrite length_app_str. subst B. cbn [String.length].
      destruct (Nat.leb_spec (String.length A + 2) 2); [lia|].
      rewrite length_app_str. cbn [String.length].
      replace (String.length A + 2 - 2)%nat with (String.length A) by lia.
      by rewrite str_take_app, str_drop_app.
Qed.

(** ** [toFixed] rounds to the nearest hundredth *)

Lemma nearest_nonneg m e f : 0 <= f → 0 <= JsNumber.nearest m e f.
Proof.
  intros Hf. unfold JsNumber.nearest. destruct (Z.leb_spec 0 e).
  - pose proof (Z.pow_pos_nonneg 2 e). pose proof (Z.pow_pos_nonneg 10 f).
    nia.
  - apply Z.div_pos.
    + pose proof (Z.pow_pos_nonneg 2 (- e)).
      pose proof (Z.pow_pos_nonneg 10 f). nia.
    + apply Z.pow_pos_nonneg; lia.
Qed.

(** No integer [k] has [k / 10^f] closer to [m * 2^e] than [nearest m e f],
    and of two that are equally close [nearest] is the larger. *)
Lemma nearest_is_nearest m e f k :
  0 <= f →
  let n := JsNumber.nearest m e f in
  scaled_dist m e f n <= scaled_dist m e f k
  ∧ (scaled_dist m e f n = scaled_dist m e f k → k <= n).
Proof.
  intros Hf. unfold scaled_dist, JsNumber.nearest. cbn zeta.
  destruct (Z.leb_spec 0 e) as [He | He].
  - rewrite Z.sub_diag. cbn. split; lia.
  - replace (1 - e) with (Z.succ (- e)) by lia.
    rewrite Z.pow_succ_r by lia.
    set (D := 2 ^ (- e)). set (X := Z.pos m * 10 ^ f).
    assert (HD : 0 < D) by (apply Z.pow_pos_nonneg; lia).
    replace (2 * Z.pos m * 10 ^ f) with (2 * X) by (subst X; ring).
    set (n := (2 * X + D) / (2 * D)).
    pose proof (Z.div_mod (2 * X + D) (2 * D) ltac:(lia)) as Hdm.
    pose proof (Z.mod_pos_bound (2 * X + D) (2 * D) ltac:(lia)) as Hmod.
    fold n in Hdm.
    assert (Hlo : - D < 2 * (n * D - X)) by lia.
    assert (Hhi : 2 * (n * D - X) <= D) by lia.
    clearbody n D X. clear Hdm Hmod.
    assert (k <= n - 1 ∨ k = n ∨ n + 1 <= k) as [Hk | [-> | Hk]] by lia.
    + assert (k * D <= n * D - D) by nia. split; lia.
    + split; lia.
    + assert (n * D + D <= k * D) by nia. split; lia.
Qed.

(** ** [formatPrice] *)

(** C1, as the code has it.  A finite, non-zero price of magnitude below
    10^21 is rendered as ["$"], a ["-"] if it is negative, the decimal digits
    of [n / 100], a point, and the two digits of [n mod 100], where [n] is
    the integer nearest to a hundred times the magnitude (the larger one on a
    tie); reading the string back gives [n] hundredths.  [undefined], [null],
    [0], [-0] and [NaN] give "$0.00"; 12.5 gives "$12.50", 9.999 gives
    "$10.00". *)
Theorem formatPrice_two_digits (s : bool) (m : positive) (e : Z) :
  JsNumber.mag_ge m e (10 ^ 21) = false →
  let n := JsNumber.nearest m e 2 in
  let price := JsNum (S754_finite s m e) in
  formatPrice price
  = "$" +:+ (if s then "-" else "") +:+ JsNumber.decimal (n / 100) +:+ "." +:+
    String (JsNumber.digit_char (n / 10 mod 10))
      (String (JsNumber.digit_char (n mod 10)) "")
  ∧ read_cents (formatPrice price) = Some (s, n)
  ∧ (∀ k, scaled_dist m e 2 n <= scaled_dist m e 2 k
          ∧ (scaled_dist m e 2 n = scaled_dist m e 2 k → k <= n))
  ∧ formatPrice JsUndefined = "$0.00"
  ∧ formatPrice JsNull = "$0.00"
  ∧ (∀ sg, formatPrice (JsNum (S754_zero sg)) = "$0.00")
  ∧ formatPrice (JsNum S754_nan) = "$0.00"
  ∧ formatPrice (JsNum (JsNumber.of_Z 0)) = "$0.00"
  ∧ formatPrice (JsNum (JsNumber.of_ratio 125 10)) = "$12.50"
  ∧ formatPrice (JsNum (JsNumber.of_ratio 9999 1000)) = "$10.00".
Proof.
  intros Hmag. cbn zeta.
  pose proof (nearest_nonneg m e 2 ltac:(lia)) as Hn.
  set (n := JsNumber.nearest m e 2) in *.
  assert (Hfmt :
    formatPrice (JsNum (S754_finite s m e))
    = "$" +:+ (if s then "-" else "") +:+ JsNumber.decimal (n / 100) +:+
      "." +:+ String (JsNumber.digit_char (n / 10 mod 10))
                (String (JsNumber.digit_char (n mod 10)) "")).
  { unfold formatPrice, JsNumber.toFixed. cbn [JsNumber.truthy].
    rewrite Hmag. change (Z.of_nat 2) with 2. fold n.
    by rewrite fixed_digits_2. }
  split_and!; try reflexivity; try exact Hfmt.
  - rewrite Hfmt.
    assert (Hq : 0 <= n / 100) by (apply Z.div_pos; lia).
    destruct (decimal_head (n / 100) Hq) as (c & rest & d & Hdec & Hc).
    assert (Hread :
      read_fixed
        (JsNumber.decimal (n / 100) +:+
         String "." (String (JsNumber.digit_char (n / 10 mod 10))
                       (String (JsNumber.digit_char (n mod 10)) ""))) 0 false
      = Some n).
    { rewrite read_fixed_decimal by done. cbn [read_fixed].
      change (digit_value ".") with (@None Z). cbn [Ascii.eqb andb].
      change (Ascii.eqb "." ".") with true. cbn [andb].
      pose proof (Z.mod_pos_bound (n / 10) 10 ltac:(lia)).
      pose proof (Z.mod_pos_bound n 10 ltac:(lia)).
      rewrite !digit_value_char by lia. f_equal.
      pose proof (Z.div_mod n 10 ltac:(lia)).
      pose proof (Z.div_mod (n / 10) 10 ltac:(lia)).
      assert (n / 10 / 10 = n / 100) by (rewrite Z.div_div; [done|lia..]).
      lia. }
    destruct s.
    + rewrite !app_cons, !app_empty_l. cbn [read_cents].
      change (Ascii.eqb "$" "$") with true. cbn iota.
      change (Ascii.eqb "-" "-") with true. cbn iota.
      by rewrite Hread.
    + rewrite !app_cons, !app_empty_l. cbn [read_cents].
      change (Ascii.eqb "$" "$") with true. cbn iota.
      rewrite Hdec in Hread |- *. rewrite app_cons in Hread |- *.
      rewrite (digit_not_minus _ _ Hc). by rewrite Hread.
  - intros k. apply (nearest_is_nearest m e 2 k). lia.
Qed.

Lemma formatPrice_two_digits_witness :
  formatPrice (JsNum (JsNumber.of_ratio 8345 1000)) = "$8.35"
  ∧ read_cents (formatPrice (JsNum (JsNumber.of_ratio (- 4999) 100)))
    = Some (true, 4999).
Proof.
  split.
  - exact (proj1 (formatPrice_two_digits false 4697817361300849 (-49) eq_refl)).
  - exact (proj1 (proj2
      (formatPrice_two_digits true 7035467042882847 (-47) eq_refl))).
Defined.

(** The literal 9.999 is the double 5628936584259699 * 2^-49: within half a
    unit in the last place of 9999/1000. *)
Example literal_9_999 :
  JsNumber.of_ratio 9999 1000 = S754_finite false 5628936584259699 (-49)
  ∧ JsNumber.is_double (JsNumber.of_ratio 9999 1000) = true
  ∧ 2 * Z.abs (5628936584259699 * 1000 - 9999 * 2 ^ 49) <= 1000.
Proof. split_and!; [reflexivity | reflexivity | vm_compute; discriminate]. Qed.

(** C1 as stated fails for a large price: 10^21 is a double, it is not zero,
    and [toFixed] hands it to [Number::toString], which writes it in exponent
    form with no fractional digits.  Infinity is written by name. *)
Lemma formatPrice_1e21 :
  let price := JsNum (JsNumber.of_Z (10 ^ 21)) in
  JsNumber.is_double (JsNumber.of_Z (10 ^ 21)) = true
  ∧ formatPrice price = "$1e+21"
  ∧ read_cents (formatPrice price) = None
  ∧ formatPrice (JsNum (S754_infinity false)) = "$Infinity".
Proof. cbn zeta. split_and!; vm_compute; reflexivity. Qed.

Lemma performSearch_replaces_books_witness :
  books (performSearch (Resolved [dune]) (set_searchTerm "Dune" mounted))
  = [ {| fields := dune; isFavorite := false; priceFormatted := "$15.00" |} ].
Proof.
  exact (proj2 (proj2 (proj2 (performSearch_replaces_books mounted [dune])))).
Defined.

Lemma wiredBooks_outcomes_witness :
  books (wiredBooks {| error := Some "down"; data := None |} reloaded)
  = books reloaded
  ∧ (isFavorite <$> books reloaded) = [false; false]
  ∧ "1" ∈ favoriteBooks reloaded.
Proof.
  split_and!.
  - exact (proj1 (proj2 (proj2
      (wiredBooks_outcomes reloaded [] None "down")))).
  - reflexivity.
  - refine (bool_decide_unpack _ _). vm_compute. exact I.
Defined.


(** * Further properties of the controller *)

(** ** The favorite toggle, continued *)

(** X1.  A click whose [data-book-id] matches no book of the list changes
    nothing: the button and the state are as they were, no toast, no call. *)
Theorem handleFavoriteToggle_unknown_id button st :
  (∀ b, b ∈ books st → Id (fields b) ≠ dataset_bookId button) →
  handleFavoriteToggle button st = (button, Returned st).
Proof.
  intros Hno. unfold handleFavoriteToggle.
  assert (Hnone :
    list_find (fun b => Id (fields b) = dataset_bookId button) (books st)
    = None).
  { apply list_find_None, Forall_forall. intros b Hb. by apply Hno. }
  by rewrite Hnone.
Qed.

Lemma handleFavoriteToggle_unknown_id_witness :
  handleFavoriteToggle (button_showing false "3") mounted
  = (button_showing false "3", Returned mounted).
Proof.
  apply handleFavoriteToggle_unknown_id.
  intros b Hb. cbn in Hb.
  apply list_elem_of_In in Hb. cbn in Hb.
  destruct Hb as [<- | [<- | []]]; discriminate.
Defined.

(** X2.  A click never adds, removes, reorders or rewrites records: the
    records and formatted prices of the list are what they were, and every
    book with another id keeps its place and its flag. *)
Theorem handleFavoriteToggle_keeps_records button st :
  let st' := state_of (handleFavoriteToggle button st).2 in
  fields <$> books st' = fields <$> books st
  ∧ priceFormatted <$> books st' = priceFormatted <$> books st
  ∧ (∀ j b, books st !! j = Some b →
            Id (fields b) ≠ dataset_bookId button →
            books st' !! j = Some b).
Proof.
  cbn zeta.
  destruct (list_find (fun x => Id (fields x) = dataset_bookId button)
              (books st)) as [[i b0]|] eqn:Hfind.
  - destruct (handleFavoriteToggle_found None _ _ _ _ Hfind) as (Hbk & _ & _).
    cbn [in_between] in Hbk. rewrite Hbk.
    pose proof (proj1 (list_find_Some _ _ _ _) Hfind) as (Hb & Hid & _).
    split_and!.
    + rewrite list_fmap_insert. apply list_insert_id.
      by rewrite list_lookup_fmap, Hb.
    + rewrite list_fmap_insert. apply list_insert_id.
      by rewrite list_lookup_fmap, Hb.
    + intros j b Hj Hne. rewrite list_lookup_insert_ne; [done|].
      intros ->. rewrite Hb in Hj. by simplify_eq.
  - unfold handleFavoriteToggle. rewrite Hfind. cbn. by split_and!.
Qed.

(** A click makes the clicked id agree and keeps the others. *)
Lemma toggle_synced button st :
  let st' := state_of (handleFavoriteToggle button st).2 in
  (∀ i b,
     list_find (fun x => Id (fields x) = dataset_bookId button) (books st')
     = Some (i, b) →
     (isFavorite b = true ↔ dataset_bookId button ∈ favoriteBooks st'))
  ∧ (synced st → synced st').
Proof.
  cbn zeta.
  destruct (list_find (fun x => Id (fields x) = dataset_bookId button)
              (books st)) as [[i0 b0]|] eqn:Hfind.
  - destruct (handleFavoriteToggle_found None _ _ _ _ Hfind)
      as (Hbk & Hfv & _).
    cbn [in_between] in Hbk, Hfv.
    pose proof (proj1 (list_find_Some _ _ _ _) Hfind) as (Hb0 & Hid0 & _).
    set (b0' := set_isFavorite (negb (isFavorite b0)) b0) in *.
    assert (Hfind' :
      list_find (fun x => Id (fields x) = dataset_bookId button)
        (<[i0 := b0']> (books st)) = Some (i0, b0')).
    { by apply (list_find_insert_same _ _ _ _ _ Hfind). }
    assert (Hthis : ∀ i b,
      list_find (fun x => Id (fields x) = dataset_bookId button)
        (<[i0 := b0']> (books st)) = Some (i, b) →
      (isFavorite b = true
       ↔ dataset_bookId button
         ∈ (if isFavorite b0
            then favoriteBooks st ∖ {[dataset_bookId button]}
            else {[dataset_bookId button]} ∪ favoriteBooks st))).
    { intros i b Hib. rewrite Hfind' in Hib.
      injection Hib as <- <-. unfold b0'. cbn [isFavorite set_isFavorite].
      destruct (isFavorite b0); cbn.
      - rewrite elem_of_difference, elem_of_singleton. split; [done|].
        by intros [_ []].
      - rewrite elem_of_union, elem_of_singleton. split; auto. }
    split; [rewrite Hbk, Hfv; exact Hthis|].
    intros Hsync id i b Hib. rewrite Hbk in Hib. rewrite Hfv.
    destruct (decide (id = dataset_bookId button)) as [-> | Hne].
    { by apply (Hthis i b). }
    assert (Hold :
      list_find (fun x => Id (fields x) = id) (books st) = Some (i, b)).
    { apply list_find_insert_Some in Hib
        as [(_ & H) | [(_ & _ & _ & HP & _) | [(_ & _ & H & _) | H]]].
      - done.
      - subst b0'. cbn in HP. congruence.
      - done.
      - destruct H as (z & _ & _ & _ & Hz & Hiz & _).
        rewrite Hb0 in Hiz. congruence. }
    rewrite (Hsync id i b Hold).
    destruct (isFavorite b0).
    + rewrite elem_of_difference, elem_of_singleton. split; [by split|].
      by intros [? _].
    + rewrite elem_of_union, elem_of_singleton. split; [by right|].
      intros [? | ?]; [congruence | done].
  - assert (Heq : state_of (handleFavoriteToggle button st).2 = st).
    { unfold handleFavoriteToggle. by rewrite Hfind. }
    rewrite Heq. split; [|done].
    intros i b Hib. rewrite Hfind in Hib. discriminate.
Qed.

(** X3.  A click puts the toggled book in step with the set, whatever held
    before: afterwards the first book with the button's id carries the
    flipped flag, and that flag is true exactly when the id is in
    [favoriteBooks]. *)
Theorem handleFavoriteToggle_synced button st i b :
  list_find (fun x => Id (fields x) = dataset_bookId button) (books st)
  = Some (i, b) →
  let st' := state_of (handleFavoriteToggle button st).2 in
  list_find (fun x => Id (fields x) = dataset_bookId button) (books st')
  = Some (i, set_isFavorite (negb (isFavorite b)) b)
  ∧ (negb (isFavorite b) = true ↔ dataset_bookId button ∈ favoriteBooks st').
Proof.
  intros Hfind. cbn zeta.
  destruct (handleFavoriteToggle_found None _ _ _ _ Hfind) as (Hbk & Hfv & _).
  cbn [in_between] in Hbk, Hfv. rewrite Hbk, Hfv.
  pose proof (proj1 (list_find_Some _ _ _ _) Hfind) as (_ & Hid & _).
  split.
  - by apply (list_find_insert_same _ _ _ _ _ Hfind).
  - destruct (isFavorite b); cbn.
    + rewrite elem_of_difference, elem_of_singleton. split; [done|].
      by intros [_ []].
    + rewrite elem_of_union, elem_of_singleton. split; auto.
Qed.

(** After the reload has put flag and set out of step, one click on Dune
    puts them back in step. *)
Lemma handleFavoriteToggle_synced_witness :
  let st' := state_of (handleFavoriteToggle (button_showing false "1")
                         reloaded).2 in
  "1" ∈ favoriteBooks reloaded
  ∧ (isFavorite <$> books reloaded) = [false; false]
  ∧ (isFavorite <$> books st') = [true; false]
  ∧ "1" ∈ favoriteBooks st'.
Proof.
  cbn zeta. split_and!.
  - refine (bool_decide_unpack _ _). vm_compute. exact I.
  - reflexivity.
  - reflexivity.
  - exact (proj1 (proj2 (handleFavoriteToggle_synced
             (button_showing false "1") reloaded 0%nat (loaded dune)
             eq_refl)) eq_refl).
Defined.

(** ** Debounce, continued *)

Lemma advance_none w T :
  timers w = [] →
  advance T w
  = {| page := page w; clock := Z.max (clock w) T; timers := [];
       next_timer := next_timer w; fired := fired w |}.
Proof. intros Ht. unfold advance. rewrite Ht. cbn. by rewrite Ht. Qed.

Lemma advance_one w id due T :
  timers w = [(id, due)] →
  advance T w
  = if due <=? T then
      {| page := performSearch_call (page w);
         clock := Z.max (Z.max (clock w) due) T; timers := [];
         next_timer := next_timer w; fired := fired w ++ [id] |}
    else
      {| page := page w; clock := Z.max (clock w) T; timers := [(id, due)];
         next_timer := next_timer w; fired := fired w |}.
Proof.
  intros Ht. unfold advance. rewrite Ht. cbn. rewrite Ht. cbn.
  destruct (due <=? T); cbn; [|by rewrite Ht].
  rewrite Ht, filter_cons. cbn. by destruct (decide (id ≠ id)).
Qed.

(** A keystroke with one timer pending: the timer fires first if it is due,
    and is replaced otherwise. *)
Lemma keystroke_pending w id k0 k :
  armed w id k0.1 → searchTerm (page w) = k0.2 → k0.1 <= k.1 →
  let w' := keystroke k w in
  (∃ id', armed w' id' k.1)
  ∧ searchTerm (page w') = k.2
  ∧ search_calls (trace (page w'))
    = search_calls (trace (page w)) ++ due_search (Some k0) k.1.
Proof.
  intros (Ht & Hd & Hc & Hn) Hs Hk. cbn zeta. unfold keystroke.
  rewrite (advance_one _ _ _ _ Ht). unfold due_search.
  destruct (Z.leb_spec (k0.1 + debounce_delay) k.1).
  - unfold handleSearchChange, armed. cbn.
    rewrite Hd, Hc, Hs, search_calls_app. cbn. split_and!; try done.
    exists (next_timer w). unfold debounce_delay in *.
    split_and!; try done; rewrite ?Z.max_r by lia; done.
  - unfold handleSearchChange, armed. cbn.
    rewrite Hd, Hc, clearTimeout_only, app_nil_r. cbn. split_and!; try done.
    exists (next_timer w). unfold debounce_delay in *.
    split_and!; try done; rewrite ?Z.max_r by lia; done.
Qed.

Lemma type_keys_pending ks : ∀ w id k0 T,
  armed w id k0.1 → searchTerm (page w) = k0.2 → in_order k0.1 ks →
  search_calls (trace (page (advance T (type_keys ks w))))
  = search_calls (trace (page w)) ++ debounced (Some k0) ks T.
Proof.
  induction ks as [|k ks IH]; intros w id k0 T Ha Hs Hord;
    unfold type_keys; cbn [foldl debounced due_search].
  - destruct Ha as (Ht & _ & _ & _). rewrite (advance_one _ _ _ _ Ht).
    destruct (k0.1 + debounce_delay <=? T); cbn.
    + by rewrite search_calls_app, Hs.
    + by rewrite app_nil_r.
  - destruct Hord as [Hk Hord].
    destruct (keystroke_pending w id k0 k Ha Hs Hk) as ([id' Ha'] & Hs' & Htr).
    fold (type_keys ks (keystroke k w)).
    rewrite (IH _ _ _ T Ha' Hs' Hord), Htr. by rewrite app_assoc.
Qed.

Lemma debounced_length ks : ∀ pending T,
  (length (debounced pending ks T)
   ≤ length ks + match pending with Some _ => 1 | None => 0 end)%nat.
Proof.
  induction ks as [|k ks IH]; intros pending T; cbn.
  - destruct pending as [k0|]; cbn; [|lia]. destruct (_ <=? _); cbn; lia.
  - rewrite length_app. specialize (IH (Some k) T). cbn in IH.
    destruct pending as [k0|]; cbn; [|lia]. destruct (_ <=? _); cbn; lia.
Qed.

(** X4.  Keystrokes at any times, in order, typed into a browser with no
    pending timer: by the time [T] the searches made are exactly those of the
    keystrokes that were followed by 300ms or more without another keystroke
    (for the last one: until [T]), each with the text of its keystroke, in
    order; there are never more searches than keystrokes. *)
Theorem debounce_characterised (w : Browser) (ks : list (Z * string)) (T : Z) :
  timers w = [] →
  in_order (clock w) ks →
  search_calls (trace (page (advance T (type_keys ks w))))
  = search_calls (trace (page w)) ++ debounced None ks T
  ∧ (length (debounced None ks T) ≤ length ks)%nat.
Proof.
  intros Ht Hord. split.
  - destruct ks as [|k ks]; unfold type_keys; cbn [foldl debounced due_search].
    + rewrite (advance_none _ _ Ht). cbn. by rewrite app_nil_r.
    + destruct Hord as [Hk Hord].
      destruct (keystroke_quiet w k Ht Hk) as (Ha & Hs & Htr & _).
      fold (type_keys ks (keystroke k w)).
      by rewrite (type_keys_pending ks _ _ k T Ha Hs Hord), Htr.
  - pose proof (debounced_length ks None T) as H. cbv beta iota in H. lia.
Qed.

Lemma debounce_characterised_witness :
  search_calls
    (trace (page (advance 2000
       (type_keys [(0, "D"); (100, "Du"); (500, "Dun"); (600, "Dune");
                   (1800, "Dune 2")]
          (quiet_browser mounted)))))
  = ["Du"; "Dune"].
Proof.
  refine (proj1 (debounce_characterised (quiet_browser mounted)
    [(0, "D"); (100, "Du"); (500, "Dun"); (600, "Dune"); (1800, "Dune 2")]
    2000 eq_refl _)).
  cbn. lia.
Defined.

(** X5.  [handleClearSearch] searches at once with the empty term and leaves
    a pending debounce timer alone: cleared before the timer is due, the box
    is searched a second time when the timer fires, again with the empty
    term. *)
Theorem handleClearSearch_keeps_timer (w : Browser) id due t T :
  timers w = [(id, due)] →
  t < due → due <= T →
  let w1 := advance t w in
  let w2 := set_page (handleClearSearch (page w1)) w1 in
  search_calls (trace (page w2)) = search_calls (trace (page w)) ++ [""]
  ∧ timers w2 = [(id, due)]
  ∧ search_calls (trace (page (advance T w2)))
    = search_calls (trace (page w)) ++ [""; ""].
Proof.
  intros Ht Hlt Hle. cbn zeta.
  rewrite (advance_one _ _ _ _ Ht).
  destruct (Z.leb_spec due t); [lia|].
  match goal with
  | |- context [advance T ?w2] =>
      rewrite (advance_one w2 id due T eq_refl)
  end.
  destruct (Z.leb_spec due T); [|lia]. cbn.
  rewrite !search_calls_app. cbn. split_and!; try done.
  by rewrite <- app_assoc.
Qed.

Lemma handleClearSearch_keeps_timer_witness :
  let w := keystroke (0, "Dune") (quiet_browser mounted) in
  let w1 := advance 100 w in
  let w2 := set_page (handleClearSearch (page w1)) w1 in
  search_calls (trace (page (advance 300 w2))) = [""; ""].
Proof.
  exact (proj2 (proj2 (handleClearSearch_keeps_timer
           (keystroke (0, "Dune") (quiet_browser mounted)) 1%nat 300 100 300
           eq_refl eq_refl ltac:(discriminate)))).
Defined.

(** ** The event loop *)

Lemma performSearch_call_backstage st :
  backstage (performSearch_call st) = backstage st.
Proof.
  unfold backstage, performSearch_call. cbn.
  rewrite agent_calls_app, toasts_app. cbn. by rewrite !app_nil_r.
Qed.

Lemma run_timers_backstage fuel : ∀ t w,
  backstage (page (run_timers fuel t w)) = backstage (page w).
Proof.
  induction fuel as [|fuel IH]; intros t w; cbn [run_timers]; [done|].
  destruct (earliest (timers w)) as [p|]; [|done].
  destruct (p.2 <=? t); [|done].
  rewrite IH. apply performSearch_call_backstage.
Qed.

Lemma advance_backstage t w :
  backstage (page (advance t w)) = backstage (page w).
Proof. unfold advance. cbn [page]. apply run_timers_backstage. Qed.

Lemma keystroke_backstage k w :
  backstage (page (keystroke k w)) = backstage (page w).
Proof.
  unfold keystroke, handleSearchChange. cbn [page].
  rewrite <- (advance_backstage k.1 w). reflexivity.
Qed.

Lemma handleClearSearch_backstage st :
  backstage (handleClearSearch st) = backstage st.
Proof. unfold handleClearSearch. by rewrite performSearch_call_backstage. Qed.

(** What a click leaves alone. *)
Lemma click_frame button st :
  let st' := state_of (handleFavoriteToggle button st).2 in
  sessionInfo st' = sessionInfo st
  ∧ delayTimeout st' = delayTimeout st
  ∧ searchTerm st' = searchTerm st
  ∧ showRecommendations st' = showRecommendations st
  ∧ recommendations st' = recommendations st.
Proof.
  unfold handleFavoriteToggle, getRecommendations_call.
  destruct (list_find _ _) as [[i b]|]; [|done]. cbn.
  destruct (isFavorite b); cbn; [done|].
  destruct (sessionInfo st) eqn:Hs; cbn; by rewrite ?Hs.
Qed.

(** Without a session a click awaits nothing and calls no agent. *)
Lemma click_no_session button st :
  sessionInfo st = None →
  let a := (handleFavoriteToggle button st).2 in
  awaiting a = 0%nat
  ∧ agent_calls (trace (state_of a)) = agent_calls (trace st).
Proof.
  intros Hs. unfold handleFavoriteToggle, getRecommendations_call.
  destruct (list_find _ _) as [[i b]|]; [|done]. cbn.
  destruct (isFavorite b); cbn; rewrite ?Hs; cbn;
    rewrite ?agent_calls_app; cbn; by rewrite ?app_nil_r.
Qed.

Lemma synced_same st st' :
  books st' = books st → favoriteBooks st' = favoriteBooks st →
  synced st → synced st'.
Proof. unfold synced. intros -> ->. done. Qed.

(** A search that resolves puts every flag in step with the set. *)
Lemma performSearch_settle_synced result st :
  synced (performSearch_settle (Resolved result) st).
Proof.
  intros id i b Hfind. cbn in Hfind.
  apply list_find_Some in Hfind as (Hib & Hid & _).
  rewrite list_lookup_fmap in Hib.
  destruct (result !! i) as [raw|]; [|done]. cbn in Hib.
  injection Hib as <-. cbn in *. subst id.
  split; [apply bool_decide_eq_true_1 | apply bool_decide_eq_true_2].
Qed.

Lemma wiredBooks_synced v st :
  (is_Some (data v) → favoriteBooks st = ∅) →
  synced st → synced (wiredBooks v st).
Proof.
  intros Hempty Hsync. unfold wiredBooks.
  destruct (data v) as [d|].
  - intros id i b Hfind. cbn in Hfind.
    apply list_find_Some in Hfind as (Hib & _ & _).
    rewrite list_lookup_fmap in Hib.
    destruct (d !! i) as [raw|]; [|done]. cbn in Hib.
    injection Hib as <-. cbn. rewrite Hempty by done.
    split; [done | by intros ?%not_elem_of_empty].
  - by destruct (error v).
Qed.

Ltac step_cases H :=
  unfold step in H; cbv beta iota zeta in H;
  repeat case_match; simplify_eq;
  unfold this_of, hosted;
  cbn [browser page set_page session_in_flight search_in_flight
       agent_in_flight].

Lemma backstage_eq st st' :
  backstage st' = backstage st →
  books st' = books st
  ∧ favoriteBooks st' = favoriteBooks st
  ∧ sessionInfo st' = sessionInfo st
  ∧ showRecommendations st' = showRecommendations st
  ∧ recommendations st' = recommendations st
  ∧ selectedBookName st' = selectedBookName st
  ∧ agent_calls (trace st') = agent_calls (trace st)
  ∧ toasts (trace st') = toasts (trace st).
Proof. unfold backstage. intros H. injection H as ? ? ? ? ? ? ? ?. done. Qed.

Ltac backstage_of E :=
  destruct (backstage_eq _ _ E) as (? & ? & ? & ? & ? & ? & ? & ?).

Lemma step_no_session ev r r' :
  step ev r = Some r' →
  grants_session ev = false →
  sessionInfo (this_of r) = None → agent_in_flight r = 0%nat →
  sessionInfo (this_of r') = None
  ∧ agent_in_flight r' = 0%nat
  ∧ agent_calls (trace (this_of r')) = agent_calls (trace (this_of r))
  ∧ (showRecommendations (this_of r) = false →
     showRecommendations (this_of r') = false).
Proof.
  intros Hstep Hg Hs Ha. unfold this_of in Hs.
  destruct ev; step_cases Hstep.
  - (* wire *)
    unfold wiredBooks. destruct (data v); [done|].
    destruct (error v); [|done]. cbn.
    rewrite agent_calls_app. cbn. by rewrite app_nil_r.
  - (* connected *)
    cbn. rewrite agent_calls_app. cbn. by rewrite app_nil_r.
  - (* the session call settles *)
    destruct r0 as [[si|]|]; [done| |]; cbn;
      rewrite ?agent_calls_app; cbn; by rewrite ?app_nil_r.
  - backstage_of (keystroke_backstage k (browser r)). split_and!; congruence.
  - backstage_of (advance_backstage t (browser r)). split_and!; congruence.
  - backstage_of (handleClearSearch_backstage (page (browser r))).
    split_and!; congruence.
  - (* a search settles *)
    destruct r0; cbn; rewrite ?agent_calls_app; cbn; by rewrite ?app_nil_r.
  - (* click *)
    destruct (click_frame button (page (browser r))) as (E1 & _ & _ & E2 & _).
    destruct (click_no_session button (page (browser r)) Hs) as (E3 & E4).
    rewrite E1, E2, E3, E4. split_and!; try done. lia.
  - (* close; an agent call cannot settle, none is in flight *)
    done.
Qed.

(** X6.  While the session call has not resolved with credentials, nothing
    the user or the services do makes the component call the agent or open
    the recommendation view: over any run of events, no agent call is added
    to the trace, none is in flight, and a closed view stays closed. *)
Theorem no_session_no_recommendations (evs : list Event) : ∀ r r',
  run evs r = Some r' →
  forallb (fun ev => negb (grants_session ev)) evs = true →
  sessionInfo (this_of r) = None → agent_in_flight r = 0%nat →
  sessionInfo (this_of r') = None
  ∧ agent_in_flight r' = 0%nat
  ∧ agent_calls (trace (this_of r')) = agent_calls (trace (this_of r))
  ∧ (showRecommendations (this_of r) = false →
     showRecommendations (this_of r') = false).
Proof.
  induction evs as [|ev evs IH]; intros r r' Hrun Hall Hs Ha.
  - cbn in Hrun. by simplify_eq.
  - cbn [run] in Hrun. destruct (step ev r) as [r1|] eqn:Hstep; [|done].
    cbn [forallb] in Hall. apply andb_prop in Hall as [Hg Hall].
    apply negb_true_iff in Hg.
    destruct (step_no_session ev r r1 Hstep Hg Hs Ha) as (Hs1 & Ha1 & Hc1 & Hv1).
    destruct (IH r1 r' Hrun Hall Hs1 Ha1) as (Hs2 & Ha2 & Hc2 & Hv2).
    split_and!; try done; [congruence | auto].
Qed.

Lemma no_session_no_recommendations_witness :
  from_option
    (fun r' => agent_calls (trace (this_of r')) = []
               ∧ showRecommendations (this_of r') = false
               ∧ "1" ∉ favoriteBooks (this_of r'))
    False
    (run events_without_session initial_runtime).
Proof.
  destruct (run events_without_session initial_runtime) as [r'|] eqn:Hrun;
    [|vm_compute in Hrun; discriminate Hrun].
  destruct (no_session_no_recommendations _ _ _ Hrun eq_refl eq_refl eq_refl)
    as (_ & _ & Hcalls & Hview).
  cbn [from_option]. split_and!; [exact Hcalls | exact (Hview eq_refl) |].
  vm_compute in Hrun. injection Hrun as <-.
  intros Hin. apply (bool_decide_pack _) in Hin. vm_compute in Hin. exact Hin.
Defined.

Lemma step_synced ev r r' :
  step ev r = Some r' →
  (delivers_data ev = true → favoriteBooks (this_of r) = ∅) →
  synced (this_of r) → synced (this_of r').
Proof.
  intros Hstep Hdata Hsync. unfold this_of in *.
  destruct ev; step_cases Hstep;
    try (by apply (synced_same (page (browser r)))).
  - apply wiredBooks_synced; [|done].
    intros [d Hd]. apply Hdata. cbn. by rewrite Hd.
  - destruct r0 as [si|]; by apply (synced_same (page (browser r))).
  - backstage_of (keystroke_backstage k (browser r)).
    by apply (synced_same (page (browser r))).
  - backstage_of (advance_backstage t (browser r)).
    by apply (synced_same (page (browser r))).
  - destruct r0 as [result|]; [apply performSearch_settle_synced|].
    by apply (synced_same (page (browser r))).
  - by apply toggle_synced.
  - destruct r0; by apply (synced_same (page (browser r))).
Qed.

(** X7.  From the start of the component on, as long as every delivery of
    data by the wire adapter comes while there are no favorites, the flag of
    the book a click would toggle agrees with membership of its id in
    [favoriteBooks], for every id: searches, clicks, timers, the session and
    the agent keep flags and set in step. *)
Theorem synced_invariant (evs : list Event) : ∀ r r',
  run evs r = Some r' →
  safe_reloads evs r →
  synced (this_of r) → synced (this_of r').
Proof.
  induction evs as [|ev evs IH]; intros r r' Hrun Hsafe Hsync.
  - cbn in Hrun. by simplify_eq.
  - cbn [run] in Hrun. cbn [safe_reloads] in Hsafe.
    destruct (step ev r) as [r1|] eqn:Hstep; [|done].
    destruct Hsafe as [Hdata Hsafe].
    eauto using step_synced.
Qed.

Lemma synced_invariant_witness :
  from_option (fun r' => synced (this_of r')) False
    (run events_with_session initial_runtime).
Proof.
  destruct (run events_with_session initial_runtime) as [r'|] eqn:Hrun;
    [|vm_compute in Hrun; discriminate Hrun].
  cbn [from_option].
  refine (synced_invariant _ _ _ Hrun _ _).
  - unfold events_with_session. cbn.
    repeat (split; [intros; first [discriminate | reflexivity]|]).
    exact I.
  - intros id i b H. discriminate H.
Defined.

Lemma one_timer_set_page st w :
  delayTimeout st = delayTimeout (page w) →
  one_timer w → one_timer (set_page st w).
Proof.
  intros Hd [Ht | (id & due & Ht & Hid)]; [by left|].
  right. exists id, due. split; [done|]. cbn. congruence.
Qed.

Lemma one_timer_advance t w : one_timer w → one_timer (advance t w).
Proof.
  intros [Ht | (id & due & Ht & Hid)].
  - rewrite (advance_none _ _ Ht). by left.
  - rewrite (advance_one _ _ _ _ Ht). destruct (due <=? t); [by left|].
    right. by exists id, due.
Qed.

Lemma one_timer_handleSearchChange value w :
  one_timer w → one_timer (handleSearchChange value w).
Proof.
  intros Hone. right. exists (next_timer w), (clock w + debounce_delay).
  split; [|done]. unfold handleSearchChange. cbn.
  destruct Hone as [Ht | (id & due & Ht & Hid)]; rewrite Ht.
  - by destruct (delayTimeout (page w)).
  - by rewrite Hid, clearTimeout_only.
Qed.

Lemma step_one_timer ev r r' :
  step ev r = Some r' → one_timer (browser r) → one_timer (browser r').
Proof.
  intros Hstep Hone.
  destruct ev; step_cases Hstep;
    try (apply one_timer_set_page; [|done]).
  - unfold wiredBooks. destruct (data v); [done|]. by destruct (error v).
  - done.
  - by destruct r0.
  - by apply one_timer_handleSearchChange, one_timer_advance.
  - by apply one_timer_advance.
  - done.
  - by destruct r0.
  - by destruct (click_frame button (page (browser r))) as (_ & -> & _).
  - by destruct r0.
  - done.
Qed.

(** X8.  Whatever happens, at most one debounce timer is pending, and it is
    the one [this.delayTimeout] names: every [setTimeout] of
    [handleSearchChange] is preceded by a [clearTimeout] that finds the
    previous timer, and no other code sets one. *)
Theorem one_timer_invariant (evs : list Event) : ∀ r r',
  run evs r = Some r' →
  one_timer (browser r) →
  one_timer (browser r') ∧ (length (timers (browser r')) ≤ 1)%nat.
Proof.
  induction evs as [|ev evs IH]; intros r r' Hrun Hone.
  - cbn in Hrun. simplify_eq. split; [done|].
    destruct Hone as [-> | (id & due & -> & _)]; cbn; lia.
  - cbn [run] in Hrun.
    destruct (step ev r) as [r1|] eqn:Hstep; [|done].
    eauto using step_one_timer.
Qed.

Lemma one_timer_invariant_witness :
  from_option (fun r' => (length (timers (browser r')) ≤ 1)%nat) False
    (run events_with_session initial_runtime).
Proof.
  destruct (run events_with_session initial_runtime) as [r'|] eqn:Hrun;
    [|vm_compute in Hrun; discriminate Hrun].
  exact (proj2 (one_timer_invariant _ _ _ Hrun (or_introl eq_refl))).
Defined.

(** X9.  What each kind of event can change: [sessionInfo] changes only when
    the session call resolves, [favoriteBooks] only on a click, and the
    recommendation view opens only when an agent call resolves. *)
Theorem step_frame ev r r' :
  step ev r = Some r' →
  ((∀ o, ev ≠ EvSessionSettled (Resolved o)) →
   sessionInfo (this_of r') = sessionInfo (this_of r))
  ∧ ((∀ button, ev ≠ EvClick button) →
     favoriteBooks (this_of r') = favoriteBooks (this_of r))
  ∧ ((∀ o, ev ≠ EvAgentSettled (Resolved o)) →
     showRecommendations (this_of r') = true →
     showRecommendations (this_of r) = true).
Proof.
  intros Hstep. destruct ev; step_cases Hstep.
  - unfold wiredBooks. destruct (data v); [done|]. by destruct (error v).
  - done.
  - destruct r0 as [o|]; [|done]. split_and!; try done.
    intros Hne. by destruct (Hne o).
  - backstage_of (keystroke_backstage k (browser r)).
    split_and!; intros; congruence.
  - backstage_of (advance_backstage t (browser r)).
    split_and!; intros; congruence.
  - backstage_of (handleClearSearch_backstage (page (browser r))).
    split_and!; intros; congruence.
  - by destruct r0.
  - destruct (click_frame button (page (browser r))) as (-> & _ & _ & -> & _).
    split_and!; try done. intros Hne. by destruct (Hne button).
  - destruct r0 as [o|]; [|done]. split_and!; try done.
    intros Hne. by destruct (Hne o).
  - done.
Qed.

Lemma step_frame_witness :
  let r := default initial_runtime (run events_with_session initial_runtime) in
  from_option
    (fun r' => sessionInfo (this_of r') = Some session
               ∧ "2" ∉ favoriteBooks (this_of r'))
    False
    (step (EvKey (600, "Emma")) r).
Proof.
  cbn zeta.
  destruct (step _ _) as [r'|] eqn:Hstep;
    [|vm_compute in Hstep; discriminate Hstep].
  destruct (step_frame _ _ _ Hstep) as (Hs & Hf & _).
  cbn [from_option]. split.
  - rewrite Hs by discriminate. reflexivity.
  - rewrite Hf by discriminate.
    intros Hin. apply (bool_decide_pack _) in Hin. vm_compute in Hin.
    exact Hin.
Defined.

(** ** Requests in flight *)

(** X10.  [isLoading] is one flag for both kinds of request: when a click
    has started an agent call and a search then settles, the flag goes from
    true to false although the agent call is still in flight. *)
Theorem loading_cleared_while_agent_in_flight button o r r1 r2 :
  step (EvClick button) r = Some r1 →
  agent_in_flight r1 = S (agent_in_flight r) →
  step (EvSearchSettled o) r1 = Some r2 →
  isLoading (this_of r1) = true
  ∧ isLoading (this_of r2) = false
  ∧ (0 < agent_in_flight r2)%nat.
Proof.
  intros Hclick Hcall Hsettle.
  step_cases Hclick. step_cases Hsettle. cbn in Hcall.
  split_and!; [|by destruct o|lia].
  revert Hcall. unfold handleFavoriteToggle, getRecommendations_call.
  destruct (list_find _ _) as [[i b]|]; cbn; [|lia].
  destruct (isFavorite b); cbn; [lia|].
  destruct (sessionInfo (page (browser r))); cbn; [done|lia].
Qed.

Lemma loading_cleared_while_agent_in_flight_witness :
  let r := {| browser := quiet_browser mounted; session_in_flight := 0;
              search_in_flight := 1; agent_in_flight := 0 |} in
  from_option
    (fun r1 =>
       from_option
         (fun r2 => isLoading (this_of r1) = true
                    ∧ isLoading (this_of r2) = false
                    ∧ (0 < agent_in_flight r2)%nat)
         False (step (EvSearchSettled (Resolved [emma])) r1))
    False (step (EvClick (button_showing false "1")) r).
Proof.
  cbn zeta.
  destruct (step (EvClick _) _) as [r1|] eqn:H1;
    [|vm_compute in H1; discriminate H1].
  cbn [from_option].
  destruct (step (EvSearchSettled _) r1) as [r2|] eqn:H2.
  - cbn [from_option].
    refine (loading_cleared_while_agent_in_flight _ _ _ _ _ H1 _ H2).
    vm_compute in H1. injection H1 as <-. reflexivity.
  - vm_compute in H1. injection H1 as <-. vm_compute in H2. discriminate H2.
Defined.

(** X11.  The list shows the result of the search call that settled last,
    whatever settled before it and in whichever order the calls were made; a
    call that rejects leaves the list of the one before. *)
Theorem last_response_wins (st : BookSearch) (result : list RawBook)
    (o : Settled (list RawBook)) :
  books (performSearch_settle (Resolved result) (performSearch_settle o st))
  = books (performSearch_settle (Resolved result) st)
  ∧ books (performSearch_settle Rejected (performSearch_settle o st))
    = books (performSearch_settle o st)
  ∧ fields <$> books (performSearch_settle (Resolved result)
                         (performSearch_settle o st))
    = result.
Proof.
  split_and!.
  - by destruct o.
  - done.
  - cbn. rewrite <- list_fmap_compose. cbn. apply list_fmap_id.
Qed.

(** ** The two directions of a click *)

(** X12.  A click on a favorite only removes it: the flag goes false, the id
    leaves the set, the one toast "... removed from favorites" is raised,
    nothing is awaited and no agent call is made.  A click on a book that is
    not a favorite, with a session, raises "... added to favorites" and then
    calls the agent with the session's credentials and a message that names
    the book, its language and its genre. *)
Theorem handleFavoriteToggle_directions button st i b :
  list_find (fun x => Id (fields x) = dataset_bookId button) (books st)
  = Some (i, b) →
  let click := handleFavoriteToggle button st in
  let st' := state_of click.2 in
  (isFavorite b = true →
   click.2 = Returned st'
   ∧ trace st'
     = trace st
       ++ [DispatchEvent
             {| title := "Success";
                message := Name (fields b) +:+ " removed from favorites";
                variant := "success" |}]
   ∧ (dataset_bookId button ∉ favoriteBooks st')
   ∧ isLoading st' = isLoading st
   ∧ selectedBookName st' = selectedBookName st)
  ∧ (∀ si, isFavorite b = false → sessionInfo st = Some si →
     click.2 = Awaiting st'
     ∧ trace st'
       = trace st
         ++ [DispatchEvent
               {| title := "Success";
                  message := Name (fields b) +:+ " added to favorites";
                  variant := "success" |};
             InvokeAgent (accessToken si) (sessionId si)
               ("Find Recommended Books similar to " +:+ Name (fields b)
                +:+ ", language " +:+ Language__c (fields b)
                +:+ " and Genre " +:+ Genre__c (fields b))]
     ∧ dataset_bookId button ∈ favoriteBooks st'
     ∧ isLoading st' = true
     ∧ selectedBookName st' = Name (fields b)).
Proof.
  intros Hfind. cbn zeta. unfold handleFavoriteToggle. rewrite Hfind. cbn.
  split.
  - intros ->. cbn. split_and!; try done.
    rewrite elem_of_difference, elem_of_singleton. by intros [_ []].
  - intros si -> Hs. cbn. unfold getRecommendations_call. cbn. rewrite Hs. cbn.
    split_and!; try done.
    + by rewrite <- app_assoc.
    + rewrite elem_of_union, elem_of_singleton. by left.
Qed.

Lemma handleFavoriteToggle_directions_witness :
  let click := handleFavoriteToggle (button_showing true "1") recommended in
  click.2 = Returned (state_of click.2)
  ∧ agent_calls (trace (state_of click.2)) = agent_calls (trace recommended).
Proof.
  cbn zeta.
  destruct (proj1 (handleFavoriteToggle_directions (button_showing true "1")
                     recommended 0%nat (set_isFavorite true (loaded dune))
                     eq_refl) eq_refl) as (Hret & Htr & _).
  split; [exact Hret|]. rewrite Htr, agent_calls_app. reflexivity.
Defined.

(** ** [formatPrice], continued *)

(** X13.  A price whose value is a whole number [z] below 10^21 is rendered
    as the decimal digits of [z] followed by ".00". *)
Theorem formatPrice_whole (s : bool) (m : positive) (e : Z) (z : Z) :
  (0 <= e → Z.pos m * 2 ^ e = z) →
  (e < 0 → Z.pos m = z * 2 ^ (- e)) →
  z < 10 ^ 21 →
  formatPrice (JsNum (S754_finite s m e))
  = "$" +:+ (if s then "-" else "") +:+ JsNumber.decimal z +:+ ".00".
Proof.
  intros Hpos Hneg Hz. unfold formatPrice, JsNumber.toFixed.
  cbn [JsNumber.truthy].
  assert (Hmn : JsNumber.mag_ge m e (10 ^ 21) = false
                ∧ JsNumber.nearest m e (Z.of_nat 2) = z * 100 ∧ 0 <= z).
  { unfold JsNumber.mag_ge, JsNumber.nearest.
    change (10 ^ Z.of_nat 2) with 100.
    destruct (Z.leb_spec 0 e) as [He | He].
    - rewrite (Hpos He). pose proof (Z.pow_pos_nonneg 2 e).
      split_and!; [apply Z.leb_gt; lia | done | nia].
    - specialize (Hneg He).
      assert (HD : 0 < 2 ^ (- e)) by (apply Z.pow_pos_nonneg; lia).
      assert (0 <= z) by nia.
      split_and!; [apply Z.leb_gt; nia | | done].
      replace (1 - e) with (Z.succ (- e)) by lia.
      rewrite Z.pow_succ_r, Hneg by lia.
      set (D := 2 ^ (- e)) in *.
      replace (2 * (z * D) * 100 + D) with ((200 * z + 1) * D) by ring.
      replace (2 * D) with (2 * D)%Z by done.
      rewrite Z.div_mul_cancel_r by lia.
      symmetry. apply (Z.div_unique _ _ _ 1); lia. }
  destruct Hmn as (-> & -> & Hz0).
  rewrite fixed_digits_2 by lia.
  rewrite Z.div_mul by lia.
  replace (z * 100) with (z * 10 * 10) by ring.
  rewrite Z.div_mul, !Z.mod_mul by lia.
  reflexivity.
Qed.

Lemma formatPrice_whole_witness :
  JsNumber.of_Z 1200 = S754_finite false 5277655813324800 (-42)
  ∧ formatPrice (JsNum (JsNumber.of_Z 1200)) = "$1200.00".
Proof.
  split; [reflexivity|].
  refine (formatPrice_whole false 5277655813324800 (-42) 1200 _ _ eq_refl).
  - lia.
  - intros _. reflexivity.
Defined.

(** X14.  A non-zero price of magnitude below half a cent is rendered as
    zero, and keeps its sign: "$0.00" when positive, "$-0.00" when
    negative. *)
Theorem formatPrice_below_half_cent (s : bool) (m : positive) (e : Z) :
  e < 0 →
  200 * Z.pos m < 2 ^ (- e) →
  formatPrice (JsNum (S754_finite s m e))
  = if s then "$-0.00" else "$0.00".
Proof.
  intros He Hsmall. unfold formatPrice, JsNumber.toFixed.
  cbn [JsNumber.truthy].
  assert (HD : 0 < 2 ^ (- e)) by (apply Z.pow_pos_nonneg; lia).
  assert (Hmag : JsNumber.mag_ge m e (10 ^ 21) = false).
  { unfold JsNumber.mag_ge. destruct (Z.leb_spec 0 e); [lia|].
    apply Z.leb_gt. change (10 ^ 21) with 1000000000000000000000. nia. }
  rewrite Hmag.
  assert (Hn : JsNumber.nearest m e (Z.of_nat 2) = 0).
  { unfold JsNumber.nearest. destruct (Z.leb_spec 0 e); [lia|].
    change (10 ^ Z.of_nat 2) with 100.
    replace (1 - e) with (Z.succ (- e)) by lia.
    rewrite Z.pow_succ_r by lia.
    apply Z.div_small. lia. }
  rewrite Hn. by destruct s.
Qed.

Lemma formatPrice_below_half_cent_witness :
  JsNumber.of_ratio (- 1) 1000 = S754_finite true 4611686018427388 (-62)
  ∧ formatPrice (JsNum (JsNumber.of_ratio (- 1) 1000)) = "$-0.00".
Proof.
  split; [reflexivity|].
  exact (formatPrice_below_half_cent true 4611686018427388 (-62)
           eq_refl eq_refl).
Defined.

(** [nearest] over a common denominator [2^(-h)]. *)
Lemma nearest_scaled m e h :
  h <= e → h <= 0 →
  JsNumber.nearest m e 2
  = (200 * (Z.pos m * 2 ^ (e - h)) + 2 ^ (- h)) / (2 * 2 ^ (- h)).
Proof.
  intros Hhe Hh0. unfold JsNumber.nearest.
  assert (HD : 0 < 2 ^ (- h)) by (apply Z.pow_pos_nonneg; lia).
  change (10 ^ 2) with 100.
  destruct (Z.leb_spec 0 e).
  - replace (e - h) with (e + - h) by lia.
    rewrite Z.pow_add_r by lia.
    set (D := 2 ^ (- h)) in *. set (X := Z.pos m * 2 ^ e).
    replace (200 * (Z.pos m * (2 ^ e * D)) + D) with ((200 * X + 1) * D)
      by (subst X; ring).
    rewrite Z.div_mul_cancel_r by lia.
    apply (Z.div_unique _ _ _ 1); subst X; lia.
  - replace (- h) with ((e - h) + - e) by lia.
    rewrite Z.pow_add_r by lia.
    replace (1 - e) with (Z.succ (- e)) by lia.
    rewrite Z.pow_succ_r by lia.
    set (S := 2 ^ (e - h)). set (D := 2 ^ (- e)).
    assert (0 < S) by (apply Z.pow_pos_nonneg; lia).
    assert (0 < D) by (apply Z.pow_pos_nonneg; lia).
    replace (200 * (Z.pos m * S) + S * D) with ((2 * Z.pos m * 100 + D) * S)
      by ring.
    replace (2 * (S * D)) with ((2 * D) * S) by ring.
    rewrite Z.div_mul_cancel_r by lia. reflexivity.
Qed.

(** Reading a rendered price back gives the nearest number of hundredths. *)
Lemma read_cents_formatPrice (s : bool) (m : positive) (e : Z) :
  JsNumber.mag_ge m e (10 ^ 21) = false →
  read_cents (formatPrice (JsNum (S754_finite s m e)))
  = Some (s, JsNumber.nearest m e 2).
Proof.
  intros Hmag. unfold formatPrice, JsNumber.toFixed. cbn [JsNumber.truthy].
  rewrite Hmag. change (Z.of_nat 2) with 2.
  pose proof (nearest_nonneg m e 2 ltac:(lia)) as Hn.
  set (n := JsNumber.nearest m e 2) in *.
  rewrite fixed_digits_2 by done.
  assert (Hq : 0 <= n / 100) by (apply Z.div_pos; lia).
  destruct (decimal_head (n / 100) Hq) as (c & rest & d & Hdec & Hc).
  set (frac := String "." (String (JsNumber.digit_char (n / 10 mod 10))
                             (String (JsNumber.digit_char (n mod 10)) ""))).
  assert (Hread :
    read_fixed (JsNumber.decimal (n / 100) +:+ frac) 0 false = Some n).
  { rewrite read_fixed_decimal by done. subst frac. cbn [read_fixed].
    change (digit_value ".") with (@None Z).
    change (Ascii.eqb "." ".") with true. cbn [andb].
    pose proof (Z.mod_pos_bound (n / 10) 10 ltac:(lia)).
    pose proof (Z.mod_pos_bound n 10 ltac:(lia)).
    rewrite !digit_value_char by lia. f_equal.
    pose proof (Z.div_mod n 10 ltac:(lia)).
    pose proof (Z.div_mod (n / 10) 10 ltac:(lia)).
    assert (n / 10 / 10 = n / 100) by (rewrite Z.div_div; [done|lia..]).
    lia. }
  change ("." +:+ String (JsNumber.digit_char (n / 10 mod 10))
                    (String (JsNumber.digit_char (n mod 10)) ""))
    with frac.
  destruct s.
  - rewrite !app_cons, !app_empty_l. cbn [read_cents].
    change (Ascii.eqb "$" "$") with true. cbn iota.
    change (Ascii.eqb "-" "-") with true. cbn iota.
    by rewrite Hread.
  - rewrite !app_cons, !app_empty_l. cbn [read_cents].
    change (Ascii.eqb "$" "$") with true. cbn iota.
    rewrite Hdec in Hread |- *. rewrite app_cons in Hread |- *.
    rewrite (digit_not_minus _ _ Hc). by rewrite Hread.
Qed.

(** X15.  Rounding to hundredths keeps the order of prices: of two positive
    prices below 10^21 the smaller one is never given more hundredths, so
    the rendered amounts are in the order of the prices. *)
Theorem formatPrice_monotone (m1 : positive) (e1 : Z) (m2 : positive) (e2 : Z) :
  JsNumber.mag_ge m1 e1 (10 ^ 21) = false →
  JsNumber.mag_ge m2 e2 (10 ^ 21) = false →
  value_le m1 e1 m2 e2 →
  ∃ n1 n2,
    read_cents (formatPrice (JsNum (S754_finite false m1 e1)))
    = Some (false, n1)
    ∧ read_cents (formatPrice (JsNum (S754_finite false m2 e2)))
      = Some (false, n2)
    ∧ n1 <= n2.
Proof.
  intros H1 H2 Hle.
  exists (JsNumber.nearest m1 e1 2), (JsNumber.nearest m2 e2 2).
  split_and!.
  - by apply read_cents_formatPrice.
  - by apply read_cents_formatPrice.
  - unfold value_le in Hle. cbn zeta in Hle.
    set (h := Z.min (Z.min e1 e2) 0) in *.
    rewrite (nearest_scaled m1 e1 h), (nearest_scaled m2 e2 h) by lia.
    assert (0 < 2 ^ (- h)) by (apply Z.pow_pos_nonneg; lia).
    apply Z.div_le_mono; lia.
Qed.

Lemma formatPrice_monotone_witness :
  ∃ n1 n2,
    read_cents (formatPrice (JsNum (JsNumber.of_ratio 1999 100)))
    = Some (false, n1)
    ∧ read_cents (formatPrice (JsNum (JsNumber.of_Z 1200))) = Some (false, n2)
    ∧ n1 <= n2.
Proof.
  refine (formatPrice_monotone 5626684784446013 (-48) 5277655813324800 (-42)
            eq_refl eq_refl _).
  vm_compute. discriminate.
Defined.

(** ** The recommendation view *)

Lemma trim_start_ink s : has_ink (trim_start s) = has_ink s.
Proof.
  induction s as [|c s IH]; [done|]. cbn.
  destruct (is_white c) eqn:Hc; cbn; [done|]. by rewrite Hc.
Qed.

Lemma trim_end_empty s : trim_end s = "" ↔ has_ink s = false.
Proof.
  induction s as [|c s IH]; [done|]. cbn.
  destruct (trim_end s) as [|c' t] eqn:Ht.
  - destruct (is_white c); cbn; [by rewrite <- IH|]. split; discriminate.
  - destruct (has_ink s).
    + rewrite orb_true_r. split; discriminate.
    + destruct IH as [_ IH]. discriminate (IH eq_refl).
Qed.

Lemma length_trim_ink s : (0 <? String.length (trim s))%nat = has_ink s.
Proof.
  unfold trim. rewrite <- (trim_start_ink s).
  destruct (trim_end (trim_start s)) as [|c t] eqn:Ht.
  - symmetry. by apply trim_end_empty.
  - cbn. destruct (has_ink (trim_start s)) eqn:Hink; [done|].
    apply trim_end_empty in Hink. congruence.
Qed.

(** X16.  [hasRecommendations] holds exactly when the text has a character
    that is not white space.  After an agent call resolves with [null] or
    the empty string it holds, thanks to the placeholder; after a call that
    resolves with white space only the view is open and it does not hold. *)
Theorem hasRecommendations_ink (st : BookSearch) (recs : option string) :
  hasRecommendations st = has_ink (recommendations st)
  ∧ (let st' := getRecommendations_settle (Resolved recs) st in
     (recs = None ∨ recs = Some "" → hasRecommendations st' = true)
     ∧ (∀ s, recs = Some s → s ≠ "" → has_ink s = false →
             showRecommendations st' = true
             ∧ hasRecommendations st' = false)).
Proof.
  assert (Hchar : ∀ st0,
    hasRecommendations st0 = has_ink (recommendations st0)).
  { intros st0. unfold hasRecommendations. rewrite length_trim_ink.
    destruct (recommendations st0); [done|]. cbn. done. }
  split; [apply Hchar|]. cbn zeta. split.
  - intros [-> | ->]; rewrite Hchar; reflexivity.
  - intros s -> Hne Hink. split; [done|]. rewrite Hchar. cbn.
    destruct (String.eqb_spec s ""); [done|]. done.
Qed.

Lemma hasRecommendations_ink_witness :
  let st' := getRecommendations_settle (Resolved (Some "  ")) mounted in
  showRecommendations st' = true ∧ hasRecommendations st' = false.
Proof.
  exact (proj2 (proj2 (hasRecommendations_ink mounted (Some "  ")))
           "  " eq_refl ltac:(discriminate) eq_refl).
Defined.

(** X17.  [handleCloseRecommendations] empties the view whatever it held:
    closed, no text, no name, [hasRecommendations] false, the rest of the
    state untouched; closing twice is closing once.  It does not cancel an
    agent call in flight: when that call resolves the view opens again, with
    the answer but without the name of a book. *)
Theorem handleCloseRecommendations_resets (st : BookSearch)
    (recs : option string) :
  let st' := handleCloseRecommendations st in
  (showRecommendations st', recommendations st', selectedBookName st')
  = (false, "", "")
  ∧ hasRecommendations st' = false
  ∧ (books st', searchTerm st', isLoading st', favoriteBooks st',
     sessionInfo st', delayTimeout st', trace st')
    = (books st, searchTerm st, isLoading st, favoriteBooks st,
       sessionInfo st, delayTimeout st, trace st)
  ∧ handleCloseRecommendations st' = st'
  ∧ (let st'' := getRecommendations_settle (Resolved recs) st' in
     (showRecommendations st'', recommendations st'', selectedBookName st'')
     = (true, or_placeholder recs, "")).
Proof. cbn zeta. split_and!; reflexivity. Qed.

(** ** The session *)

(** X18.  A session call that resolves with [null] raises no notification
    and leaves the service without a session: a recommendation request made
    afterwards ends in the toast "Recommendation service not initialized" and
    calls no agent.  A session call that rejects raises exactly one toast and
    keeps the session the component had. *)
Theorem connectedCallback_without_credentials (st : BookSearch) (book : Book)
    (r : Settled (option string)) :
  (let st1 := connectedCallback_settle (Resolved None) st in
   sessionInfo st1 = None
   ∧ toasts (trace st1) = toasts (trace st)
   ∧ let st2 := getRecommendations book r st1 in
     toasts (trace st2) = toasts (trace st) ++ [not_initialized]
     ∧ agent_calls (trace st2) = agent_calls (trace st)
     ∧ showRecommendations st2 = showRecommendations st)
  ∧ (let st1 := connectedCallback_settle Rejected st in
     sessionInfo st1 = sessionInfo st
     ∧ toasts (trace st1)
       = toasts (trace st)
         ++ [ {| title := "Error";
                 message := "Failed to initialize recommendation service";
                 variant := "error" |} ]).
Proof.
  cbn zeta. split_and!; try done.
  - cbn. rewrite toasts_app. cbn. by rewrite app_nil_r.
  - cbn. rewrite !toasts_app. cbn. by rewrite app_nil_r.
  - cbn. rewrite !agent_calls_app. cbn. by rewrite !app_nil_r.
  - cbn. rewrite !toasts_app. cbn. by rewrite app_nil_r.
Qed.

(** ** Favorites across searches *)

(** X19.  Favorites outlive the list they were chosen in: after a click on a
    book, every record with that book's id in a later search result is shown
    with the flag the click left, favorite after favoriting and not after
    unfavoriting, whether or not the agent call of the click has settled. *)
Theorem favorite_survives_search button st i b r result j raw :
  list_find (fun x => Id (fields x) = dataset_bookId button) (books st)
  = Some (i, b) →
  result !! j = Some raw →
  Id raw = dataset_bookId button →
  let st1 := in_between r (handleFavoriteToggle button st).2 in
  let st2 := performSearch_settle (Resolved result) st1 in
  books st2 !! j
  = Some {| fields := raw; isFavorite := negb (isFavorite b);
            priceFormatted := formatPrice (Price__c raw) |}.
Proof.
  intros Hfind Hj Hid. cbn zeta.
  destruct (handleFavoriteToggle_found r _ _ _ _ Hfind) as (_ & Hfv & _).
  cbn [performSearch_settle books set_books set_isLoading].
  rewrite list_lookup_fmap, Hj. cbn. do 2 f_equal.
  rewrite Hfv, Hid. destruct (isFavorite b); cbn.
  - apply bool_decide_eq_false_2.
    rewrite elem_of_difference, elem_of_singleton. by intros [_ []].
  - apply bool_decide_eq_true_2.
    rewrite elem_of_union, elem_of_singleton. by left.
Qed.

Lemma favorite_survives_search_witness :
  let st1 := in_between (Some Rejected)
               (handleFavoriteToggle (button_showing false "2") mounted).2 in
  books (performSearch_settle (Resolved [emma; dune]) st1) !! 0%nat
  = Some {| fields := emma; isFavorite := true; priceFormatted := "$0.00" |}.
Proof.
  exact (favorite_survives_search (button_showing false "2") mounted
           1%nat (loaded emma) (Some Rejected) [emma; dune] 0%nat emma
           eq_refl eq_refl eq_refl).
Defined.

(** ** Recommendation requests with other events in between *)

Lemma step_keeps_selection ev r r' :
  step ev r = Some r' → keeps_selection ev = true →
  selectedBookName (this_of r') = selectedBookName (this_of r).
Proof.
  intros Hstep Hk. destruct ev; try discriminate Hk; step_cases Hstep.
  - unfold wiredBooks. destruct (data v); [done|]. by destruct (error v).
  - done.
  - by destruct r0.
  - by backstage_of (keystroke_backstage k (browser r)).
  - by backstage_of (advance_backstage t (browser r)).
  - by backstage_of (handleClearSearch_backstage (page (browser r))).
  - by destruct r0.
  - by destruct r0.
Qed.

Lemma run_keeps_selection evs : ∀ r r',
  run evs r = Some r' → forallb keeps_selection evs = true →
  selectedBookName (this_of r') = selectedBookName (this_of r).
Proof.
  induction evs as [|ev evs IH]; intros r r' Hrun Hall.
  - cbn in Hrun. by simplify_eq.
  - cbn [run] in Hrun. destruct (step ev r) as [r1|] eqn:Hstep; [|done].
    cbn [forallb] in Hall. apply andb_prop in Hall as [Hk Hall].
    rewrite (IH _ _ Hrun Hall). by apply (step_keeps_selection ev).
Qed.

Lemma step_keeps_closed ev r r' :
  step ev r = Some r' → opens_view ev = false →
  showRecommendations (this_of r) = false →
  showRecommendations (this_of r') = false.
Proof.
  intros Hstep Hk Hclosed. unfold this_of in Hclosed.
  destruct ev; step_cases Hstep.
  - unfold wiredBooks. destruct (data v); [done|]. by destruct (error v).
  - done.
  - by destruct r0.
  - backstage_of (keystroke_backstage k (browser r)). congruence.
  - backstage_of (advance_backstage t (browser r)). congruence.
  - backstage_of (handleClearSearch_backstage (page (browser r))). congruence.
  - by destruct r0.
  - destruct (click_frame button (page (browser r))) as (_ & _ & _ & -> & _).
    done.
  - by destruct r0.
  - done.
Qed.

Lemma run_keeps_closed evs : ∀ r r',
  run evs r = Some r' →
  forallb (fun ev => negb (opens_view ev)) evs = true →
  showRecommendations (this_of r) = false →
  showRecommendations (this_of r') = false.
Proof.
  induction evs as [|ev evs IH]; intros r r' Hrun Hall Hclosed.
  - cbn in Hrun. by simplify_eq.
  - cbn [run] in Hrun. destruct (step ev r) as [r1|] eqn:Hstep; [|done].
    cbn [forallb] in Hall. apply andb_prop in Hall as [Hk Hall].
    apply negb_true_iff in Hk.
    eauto using step_keeps_closed.
Qed.

(** C8, as the code has it.  With a session, [getRecommendations] sets
    [selectedBookName] to the book's name and calls the agent, before the
    [await].  When the call resolves with [recs], in whatever state the
    component is by then, [recommendations] becomes [recs], or the
    placeholder when [recs] is [null] or empty, [showRecommendations] becomes
    true, and [selectedBookName] is left as it is.  So when no click on a
    favorite button and no close of the view comes between the call and its
    answer, the view is (visible, the book's name, the text); in particular
    when the answer follows the call at once. *)
Theorem getRecommendations_success (book : Book) (st : BookSearch)
    (si : SessionInfo) (recs : option string) :
  sessionInfo st = Some si →
  let called := state_of (getRecommendations_call book st) in
  (getRecommendations_call book st = Awaiting called
   ∧ selectedBookName called = Name (fields book)
   ∧ ∃ msg, trace called
            = trace st ++ [InvokeAgent (accessToken si) (sessionId si) msg])
  ∧ (∀ st0, let st1 := getRecommendations_settle (Resolved recs) st0 in
            recommendations st1 = or_placeholder recs
            ∧ showRecommendations st1 = true
            ∧ selectedBookName st1 = selectedBookName st0
            ∧ isLoading st1 = false)
  ∧ (∀ s, recs = Some s → s ≠ "" → or_placeholder recs = s)
  ∧ (recs = None ∨ recs = Some "" → or_placeholder recs = placeholder)
  ∧ (∀ r1 evs r2 r3,
       this_of r1 = called →
       run evs r1 = Some r2 →
       forallb keeps_selection evs = true →
       step (EvAgentSettled (Resolved recs)) r2 = Some r3 →
       view (this_of r3) = (true, Name (fields book), or_placeholder recs))
  ∧ view (getRecommendations book (Resolved recs) st)
    = (true, Name (fields book), or_placeholder recs)
  ∧ (recs = Some "Try Foundation" →
     view (getRecommendations book (Resolved recs) st)
     = (true, Name (fields book), "Try Foundation")).
Proof.
  intros Hs. cbn zeta.
  assert (Hcall :
    getRecommendations_call book st
    = Awaiting (state_of (getRecommendations_call book st))
    ∧ selectedBookName (state_of (getRecommendations_call book st))
      = Name (fields book)).
  { unfold getRecommendations_call. by rewrite Hs. }
  destruct Hcall as [Hcall Hname].
  split_and!.
  - exact Hcall.
  - exact Hname.
  - unfold getRecommendations_call. rewrite Hs. cbn. by eexists.
  - done.
  - intros s -> Hne. cbn. destruct (String.eqb_spec s ""); congruence.
  - by intros [-> | ->].
  - intros r1 evs r2 r3 Hr1 Hrun Hall Hstep.
    pose proof (run_keeps_selection evs r1 r2 Hrun Hall) as Hsel.
    rewrite Hr1, Hname in Hsel.
    step_cases Hstep. unfold view. cbn. unfold this_of in Hsel.
    by rewrite Hsel.
  - unfold getRecommendations. rewrite Hcall. unfold view. cbn.
    by rewrite Hname.
  - intros ->. unfold getRecommendations. rewrite Hcall. unfold view. cbn.
    by rewrite Hname.
Qed.

(** A search is typed and answered while Dune's agent call is in flight; the
    answer then opens the view under Dune's name. *)
Lemma getRecommendations_success_witness :
  from_option
    (fun r2 =>
       from_option
         (fun r3 => view (this_of r3) = (true, "Dune", "Try Foundation"))
         False
         (step (EvAgentSettled (Resolved (Some "Try Foundation"))) r2))
    False
    (run [EvKey (0, "Du"); EvTick 300; EvSearchSettled (Resolved [dune])]
       (awaiting_agent dune)).
Proof.
  destruct (run _ _) as [r2|] eqn:Hrun; [|vm_compute in Hrun; discriminate Hrun].
  cbn [from_option].
  destruct (step _ r2) as [r3|] eqn:Hstep.
  - cbn [from_option].
    exact (proj1 (proj2 (proj2 (proj2 (proj2
      (getRecommendations_success (loaded dune) mounted session
         (Some "Try Foundation") eq_refl)))))
      (awaiting_agent dune) _ r2 r3 eq_refl Hrun eq_refl Hstep).
  - vm_compute in Hrun. injection Hrun as <-.
    vm_compute in Hstep. discriminate Hstep.
Defined.

(** C8 as stated fails when a second favorite is clicked before the first
    agent call has answered: Dune and then Emma are made favorites, two agent
    calls are in flight, and when the answer for Dune arrives the view opens
    with Dune's text under Emma's name. *)
Lemma getRecommendations_success_other_click :
  let st' := getRecommendations_settle (Resolved (Some "Try Foundation"))
               two_in_flight in
  length (agent_calls (trace two_in_flight)) = 2%nat
  ∧ head (agent_calls (trace two_in_flight))
    = Some "Find Recommended Books similar to Dune, language English and Genre SciFi"
  ∧ view st' = (true, "Emma", "Try Foundation")
  ∧ selectedBookName st' ≠ "Dune".
Proof. cbn zeta. split_and!; [reflexivity..|discriminate]. Qed.

(** C9, as the code has it.  With a session, the call changes neither
    [showRecommendations] nor [recommendations].  When the agent call
    rejects, in whatever state the component is by then, the trace grows by a
    console error and the one toast "Failed to get book recommendations", the
    view (visibility, name, text) is left as it is, and [isLoading] is false,
    as after every outcome.  So a view that was closed before the call is
    closed after the failure unless another agent call has resolved in
    between; in particular when the failure follows the call at once. *)
Theorem getRecommendations_failure (book : Book) (st : BookSearch)
    (si : SessionInfo) :
  sessionInfo st = Some si →
  let called := state_of (getRecommendations_call book st) in
  let failed := {| title := "Error";
                   message := "Failed to get book recommendations";
                   variant := "error" |} in
  (showRecommendations called = showRecommendations st
   ∧ recommendations called = recommendations st)
  ∧ (∀ st0, let st1 := getRecommendations_settle Rejected st0 in
            toasts (trace st1) = toasts (trace st0) ++ [failed]
            ∧ view st1 = view st0
            ∧ isLoading st1 = false)
  ∧ (∀ r st0, isLoading (getRecommendations_settle r st0) = false)
  ∧ (∀ r1 evs r2 r3,
       this_of r1 = called →
       showRecommendations st = false →
       run evs r1 = Some r2 →
       forallb (fun ev => negb (opens_view ev)) evs = true →
       step (EvAgentSettled Rejected) r2 = Some r3 →
       showRecommendations (this_of r3) = false)
  ∧ (let st' := getRecommendations book Rejected st in
     toasts (trace st') = toasts (trace st) ++ [failed]
     ∧ showRecommendations st' = showRecommendations st
     ∧ recommendations st' = recommendations st
     ∧ (showRecommendations st = false → showRecommendations st' = false)
     ∧ isLoading st' = false)
  ∧ (∀ r, isLoading (getRecommendations book r st) = false).
Proof.
  intros Hs. cbn zeta.
  assert (Hcall :
    getRecommendations_call book st
    = Awaiting (state_of (getRecommendations_call book st))
    ∧ showRecommendations (state_of (getRecommendations_call book st))
      = showRecommendations st
    ∧ recommendations (state_of (getRecommendations_call book st))
      = recommendations st
    ∧ toasts (trace (state_of (getRecommendations_call book st)))
      = toasts (trace st)).
  { unfold getRecommendations_call. rewrite Hs. cbn.
    rewrite toasts_app. cbn. by rewrite app_nil_r. }
  destruct Hcall as (Hcall & Hshow & Hrecs & Htoasts).
  assert (Hsettle : ∀ st0,
    toasts (trace (getRecommendations_settle Rejected st0))
    = toasts (trace st0)
      ++ [ {| title := "Error";
              message := "Failed to get book recommendations";
              variant := "error" |} ]).
  { intros st0. cbn. rewrite !toasts_app. cbn. by rewrite app_nil_r. }
  split_and!; try done.
  - intros r1 evs r2 r3 Hr1 Hclosed Hrun Hall Hstep.
    assert (Hc1 : showRecommendations (this_of r1) = false)
      by (rewrite Hr1; congruence).
    pose proof (run_keeps_closed evs r1 r2 Hrun Hall Hc1) as Hc2.
    step_cases Hstep. exact Hc2.
  - unfold getRecommendations. rewrite Hcall. cbn [agent_settles].
    by rewrite Hsettle, Htoasts.
  - unfold getRecommendations. by rewrite Hcall.
  - unfold getRecommendations. by rewrite Hcall.
  - intros Hclosed. unfold getRecommendations. rewrite Hcall. cbn.
    congruence.
  - unfold getRecommendations. by rewrite Hcall.
  - intros r. unfold getRecommendations. by rewrite Hcall.
Qed.

(** Emma's agent call fails after a search was typed and failed too: the
    view, closed before, is closed after. *)
Lemma getRecommendations_failure_witness :
  from_option
    (fun r2 =>
       from_option (fun r3 => showRecommendations (this_of r3) = false) False
         (step (EvAgentSettled Rejected) r2))
    False
    (run [EvKey (0, "Em"); EvTick 300; EvSearchSettled Rejected]
       (awaiting_agent emma)).
Proof.
  destruct (run _ _) as [r2|] eqn:Hrun; [|vm_compute in Hrun; discriminate Hrun].
  cbn [from_option].
  destruct (step _ r2) as [r3|] eqn:Hstep.
  - cbn [from_option].
    exact (proj1 (proj2 (proj2 (proj2
      (getRecommendations_failure (loaded emma) mounted session eq_refl))))
      (awaiting_agent emma) _ r2 r3 eq_refl eq_refl Hrun eq_refl Hstep).
  - vm_compute in Hrun. injection Hrun as <-.
    vm_compute in Hstep. discriminate Hstep.
Defined.

(** With two agent calls in flight and the view closed, the answer of one
    opens the view and the failure of the other leaves it open. *)
Example failure_after_other_answer :
  let st1 := getRecommendations_settle (Resolved (Some "Try Foundation"))
               two_in_flight in
  let st2 := getRecommendations_settle Rejected st1 in
  showRecommendations two_in_flight = false
  ∧ view st2 = (true, "Emma", "Try Foundation").
Proof. cbn zeta. split; reflexivity. Qed.
